(** * system-brain-agent: a shallow embedding of [agent.py]

    The development follows the source function by function.  Python
    [str] values are sequences of Unicode code points, directories are
    finite maps from entry names to nodes, and the functions that touch
    the outside world run in a small state-and-exception monad over the
    file tree below the user's home directory together with the log of
    the queries made to the operating system. *)

From Stdlib Require Import ZArith NArith List String Ascii Lia Bool.
From stdpp Require Import base option gmap list sorting.

Set Default Proof Using "Type".
Set Warnings "-register-all".
#[local] Open Scope list_scope.

(* ===================================================================== *)
(** ** Python strings *)
(* ===================================================================== *)

(** A Python [str]: the list of its code points. *)
Abbreviation pystr := (list N).

(** An ASCII literal of the source as a [pystr]. *)
Definition lit (s : string) : pystr := map N_of_ascii (list_ascii_of_string s).
Arguments lit _%_string.

(** [str.isspace] on one code point (CPython's [_PyUnicode_IsWhitespace]). *)
Definition isspace (c : N) : bool :=
  ((9 <=? c) && (c <=? 13) || (28 <=? c) && (c <=? 32) || (c =? 133) ||
   (c =? 160) || (c =? 5760) || (8192 <=? c) && (c <=? 8202) ||
   (c =? 8232) || (c =? 8233) || (c =? 8239) || (c =? 8287) ||
   (c =? 12288))%N.

Fixpoint lstrip (s : pystr) : pystr :=
  match s with
  | [] => []
  | c :: t => if isspace c then lstrip t else s
  end.

Definition rstrip (s : pystr) : pystr := rev (lstrip (rev s)).

(** [s.strip()] *)
Definition strip (s : pystr) : pystr := rstrip (lstrip s).

(** [s.startswith(p)] *)
Fixpoint startswith (p s : pystr) : bool :=
  match p, s with
  | [], _ => true
  | _ :: _, [] => false
  | a :: p', b :: s' => (a =? b)%N && startswith p' s'
  end.

(** [sub in s] *)
Fixpoint contains (sub s : pystr) : bool :=
  startswith sub s ||
  match s with
  | [] => false
  | _ :: t => contains sub t
  end.

(** The scan of [s.replace(old, new)] for a non-empty [old]: left to
    right, occurrences do not overlap; [skip] counts the code points of
    a matched occurrence that are still to be dropped. *)
Fixpoint replace_scan (old new : pystr) (skip : nat) (s : pystr) : pystr :=
  match s with
  | [] => []
  | c :: t =>
      match skip with
      | S k => replace_scan old new k t
      | O =>
          if startswith old s
          then new ++ replace_scan old new (length old - 1) t
          else c :: replace_scan old new 0 t
      end
  end.

(** [s.replace(old, new)]; an empty [old] matches between all code points. *)
Definition str_replace (old new s : pystr) : pystr :=
  match old with
  | [] => new ++ flat_map (fun c => c :: new) s
  | _ :: _ => replace_scan old new 0 s
  end.

(** [a <= b] on strings: code point by code point, a proper prefix first. *)
Fixpoint str_leb (a b : pystr) : bool :=
  match a, b with
  | [], _ => true
  | _ :: _, [] => false
  | x :: a', y :: b' =>
      if (x <? y)%N then true else if (x =? y)%N then str_leb a' b' else false
  end.

Definition str_le (a b : pystr) : Prop := str_leb a b = true.
Definition str_lt (a b : pystr) : Prop := str_le a b /\ a <> b.

#[global] Instance str_le_dec a b : Decision (str_le a b) :=
  decide (str_leb a b = true).

(** Decimal digits, most significant first; the fuel bounds the number of
    digits ([decimal] gives enough). *)
Definition digit (d : N) : N := (48 + d)%N.

Fixpoint decimal_fuel (fuel : nat) (n : N) : pystr :=
  match fuel with
  | O => []
  | S f =>
      if (n <? 10)%N then [digit n]
      else decimal_fuel f (n / 10)%N ++ [digit (n mod 10)%N]
  end.

Definition decimal (n : N) : pystr := decimal_fuel (S (N.to_nat (N.log2 n))) n.

(** ["%0<w>d" % n] for a non-negative [n]. *)
Definition zero_pad (w : nat) (n : N) : pystr :=
  let d := decimal n in repeat (digit 0) (w - length d) ++ d.

(** [str(z)] for an [int]. *)
Definition str_of_int (z : Z) : pystr :=
  if (z <? 0)%Z then lit "-" ++ decimal (Z.to_N (- z)) else decimal (Z.to_N z).

(** [str(b)] for a [bool]. *)
Definition str_of_bool (b : bool) : pystr := if b then lit "True" else lit "False".

(* ===================================================================== *)
(** ** Timestamps: [utc_ts] *)
(* ===================================================================== *)

(** A [datetime] in UTC, as [datetime.now(timezone.utc)] returns it. *)
Record datetime := {
  year : N; month : N; day : N;
  hour : N; minute : N; second : N; microsecond : N
}.

(** The ranges of the fields of a [datetime]. *)
Definition valid_datetime (d : datetime) : Prop :=
  (1 <= year d <= 9999 /\ 1 <= month d <= 12 /\ 1 <= day d <= 31 /\
   hour d <= 23 /\ minute d <= 59 /\ second d <= 59 /\
   microsecond d <= 999999)%N.

(** [d.isoformat()] for an aware datetime with offset zero: the fraction
    is printed only when [microsecond] is not zero. *)
Definition isoformat (d : datetime) : pystr :=
  zero_pad 4 (year d) ++ lit "-" ++ zero_pad 2 (month d) ++ lit "-" ++
  zero_pad 2 (day d) ++ lit "T" ++ zero_pad 2 (hour d) ++ lit ":" ++
  zero_pad 2 (minute d) ++ lit ":" ++ zero_pad 2 (second d) ++
  (if (microsecond d =? 0)%N then [] else lit "." ++ zero_pad 6 (microsecond d)) ++
  lit "+00:00".

Definition utc_ts (now : datetime) : pystr :=
  str_replace (lit "+00:00") (lit "Z") (isoformat now).

(** Chronological order of two instants. *)
Definition dt_key (d : datetime) : list N :=
  [year d; month d; day d; hour d; minute d; second d; microsecond d].

Fixpoint key_ltb (a b : list N) : bool :=
  match a, b with
  | x :: a', y :: b' =>
      if (x <? y)%N then true else if (x =? y)%N then key_ltb a' b' else false
  | _, _ => false
  end.

Definition earlier (d1 d2 : datetime) : bool := key_ltb (dt_key d1) (dt_key d2).

(* ===================================================================== *)
(** ** JSON values, [json.dumps] and a reader for its output *)
(* ===================================================================== *)

(** The values [json.dumps] is applied to; a [dict] keeps its insertion
    order and all its keys are strings. *)
Inductive json :=
  | JNull
  | JBool (b : bool)
  | JInt (z : Z)
  | JStr (s : pystr)
  | JArr (items : list json)
  | JObj (members : list (pystr * json)).

Definition hex_digit (d : N) : N := if (d <? 10)%N then (48 + d)%N else (87 + d)%N.

(** One code point inside a JSON string ([json.encoder.ESCAPE_DCT], with
    [ensure_ascii=False]): quote, backslash and the code points below
    0x20 are escaped, everything else is written as it is. *)
Definition escape_char (c : N) : pystr :=
  if (c =? 34)%N then [92; 34]%N else
  if (c =? 92)%N then [92; 92]%N else
  if (c =? 10)%N then 92%N :: lit "n" else
  if (c =? 13)%N then 92%N :: lit "r" else
  if (c =? 9)%N then 92%N :: lit "t" else
  if (c =? 8)%N then 92%N :: lit "b" else
  if (c =? 12)%N then 92%N :: lit "f" else
  if (c <? 32)%N then 92%N :: lit "u00" ++ [hex_digit (c / 16); hex_digit (c mod 16)]
  else [c].

(** [py_encode_basestring]: the escaped text between two quotes (code
    point 34). *)
Definition json_quote (s : pystr) : pystr :=
  34%N :: flat_map escape_char s ++ [34%N].

(** [sep.join(parts)] *)
Fixpoint str_join (sep : pystr) (parts : list pystr) : pystr :=
  match parts with
  | [] => []
  | [x] => x
  | x :: rest => x ++ sep ++ str_join sep rest
  end.

(** [json.dumps(v, ensure_ascii=False)]: one line, separators [", "] and
    [": "]. *)
Fixpoint json_dumps (v : json) : pystr :=
  match v with
  | JNull => lit "null"
  | JBool true => lit "true"
  | JBool false => lit "false"
  | JInt z => str_of_int z
  | JStr s => json_quote s
  | JArr items =>
      lit "[" ++ str_join (lit ", ") (map json_dumps items) ++ lit "]"
  | JObj members =>
      lit "{" ++
      str_join (lit ", ")
        (map (fun kv => json_quote (fst kv) ++ lit ": " ++ json_dumps (snd kv))
             members) ++
      lit "}"
  end.

(** The line break and indentation [json.dumps(..., indent=2)] writes at
    nesting level [lvl]. *)
Definition newline_indent (lvl : nat) : pystr := 10%N :: repeat 32%N (2 * lvl).

(** [json.dumps(v, indent=2, ensure_ascii=False)] at nesting level [lvl]:
    the item separator is [","], empty containers stay on one line. *)
Fixpoint json_dumps_indent (lvl : nat) (v : json) : pystr :=
  match v with
  | JArr [] => lit "[]"
  | JArr items =>
      lit "[" ++ newline_indent (S lvl) ++
      str_join (lit "," ++ newline_indent (S lvl))
        (map (json_dumps_indent (S lvl)) items) ++
      newline_indent lvl ++ lit "]"
  | JObj [] => lit "{}"
  | JObj members =>
      lit "{" ++ newline_indent (S lvl) ++
      str_join (lit "," ++ newline_indent (S lvl))
        (map (fun kv => json_quote (fst kv) ++ lit ": " ++
                        json_dumps_indent (S lvl) (snd kv)) members) ++
      newline_indent lvl ++ lit "}"
  | _ => json_dumps v
  end.

(** *** Reading a document back: [json.loads]

    The reader follows [json.decoder] ([py_scanstring], [JSONObject],
    [JSONArray], [scan_once]) on the documents without floating point
    numbers; the members of an object are returned in document order.  A
    pair of surrogate escapes is read as two code points: [json.dumps]
    with [ensure_ascii=False] writes no such escape. *)

Definition is_ws (c : N) : bool :=
  ((c =? 32) || (c =? 9) || (c =? 10) || (c =? 13))%N.

Fixpoint skip_ws (s : pystr) : pystr :=
  match s with
  | [] => []
  | c :: t => if is_ws c then skip_ws t else s
  end.

Definition hex_val (c : N) : option N :=
  if ((48 <=? c) && (c <=? 57))%N then Some (c - 48)%N
  else if ((97 <=? c) && (c <=? 102))%N then Some (c - 87)%N
  else if ((65 <=? c) && (c <=? 70))%N then Some (c - 55)%N
  else None.

Definition hex4 (a b c d : N) : option N :=
  match hex_val a, hex_val b, hex_val c, hex_val d with
  | Some x, Some y, Some z, Some w => Some (((x * 16 + y) * 16 + z) * 16 + w)%N
  | _, _, _, _ => None
  end.

(** The code point a one-letter escape stands for ([BACKSLASH]). *)
Definition unescape (e : N) : option N :=
  if (e =? 34)%N then Some 34%N else
  if (e =? 92)%N then Some 92%N else
  if (e =? 47)%N then Some 47%N else
  if (e =? 98)%N then Some 8%N else
  if (e =? 102)%N then Some 12%N else
  if (e =? 110)%N then Some 10%N else
  if (e =? 114)%N then Some 13%N else
  if (e =? 116)%N then Some 9%N else None.

(** The text of a string after its opening quote, up to the closing one
    (strict mode: a raw control character is an error). *)
Fixpoint scan_string (s : pystr) : option (pystr * pystr) :=
  match s with
  | [] => None
  | c :: t =>
      if (c =? 34)%N then Some ([], t)
      else if (c =? 92)%N then
        match t with
        | [] => None
        | e :: t' =>
            if (e =? 117)%N then
              match t' with
              | h1 :: h2 :: h3 :: h4 :: t'' =>
                  match hex4 h1 h2 h3 h4, scan_string t'' with
                  | Some u, Some (r, rest) => Some (u :: r, rest)
                  | _, _ => None
                  end
              | _ => None
              end
            else
              match unescape e, scan_string t' with
              | Some x, Some (r, rest) => Some (x :: r, rest)
              | _, _ => None
              end
        end
      else if (c <? 32)%N then None
      else
        match scan_string t with
        | Some (r, rest) => Some (c :: r, rest)
        | None => None
        end
  end.

Definition is_digit (c : N) : bool := ((48 <=? c) && (c <=? 57))%N.

Fixpoint scan_digits (acc : N) (s : pystr) : N * pystr :=
  match s with
  | [] => (acc, [])
  | c :: t => if is_digit c then scan_digits (acc * 10 + (c - 48))%N t else (acc, s)
  end.

(** The integer part of a number: [0|[1-9]\d*]. *)
Definition scan_nat (s : pystr) : option (N * pystr) :=
  match s with
  | [] => None
  | c :: t =>
      if (c =? 48)%N then Some (0%N, t)
      else if is_digit c then Some (scan_digits 0 s)
      else None
  end.

(** A fraction or an exponent follows: the number is not an [int]. *)
Definition float_follows (s : pystr) : bool :=
  match s with
  | [] => false
  | c :: _ => ((c =? 46) || (c =? 101) || (c =? 69))%N
  end.

Definition scan_int (s : pystr) : option (Z * pystr) :=
  match s with
  | [] => None
  | c :: t =>
      if (c =? 45)%N then
        match scan_nat t with
        | Some (n, r) => if float_follows r then None else Some ((- Z.of_N n)%Z, r)
        | None => None
        end
      else
        match scan_nat s with
        | Some (n, r) => if float_follows r then None else Some (Z.of_N n, r)
        | None => None
        end
  end.

(** [scan_once] reads one value; [scan_items] the values of an array and
    [scan_members] the members of an object, each up to the closing
    bracket.  The fuel bounds the nesting and the number of items. *)
Fixpoint scan_once (fuel : nat) (s : pystr) {struct fuel} : option (json * pystr) :=
  match fuel with
  | O => None
  | S f =>
      match s with
      | [] => None
      | c :: t =>
          if (c =? 34)%N then
            match scan_string t with
            | Some (x, r) => Some (JStr x, r)
            | None => None
            end
          else if (c =? 123)%N then
            match skip_ws t with
            | [] => None
            | c1 :: t1 =>
                if (c1 =? 125)%N then Some (JObj [], t1)
                else
                  match scan_members f (c1 :: t1) with
                  | Some (ms, r) => Some (JObj ms, r)
                  | None => None
                  end
            end
          else if (c =? 91)%N then
            match skip_ws t with
            | [] => None
            | c1 :: t1 =>
                if (c1 =? 93)%N then Some (JArr [], t1)
                else
                  match scan_items f (c1 :: t1) with
                  | Some (vs, r) => Some (JArr vs, r)
                  | None => None
                  end
            end
          else if startswith (lit "null") s then Some (JNull, drop 4 s)
          else if startswith (lit "true") s then Some (JBool true, drop 4 s)
          else if startswith (lit "false") s then Some (JBool false, drop 5 s)
          else
            match scan_int s with
            | Some (z, r) => Some (JInt z, r)
            | None => None
            end
      end
  end
with scan_items (fuel : nat) (s : pystr) {struct fuel} : option (list json * pystr) :=
  match fuel with
  | O => None
  | S f =>
      match scan_once f s with
      | None => None
      | Some (v, r) =>
          match skip_ws r with
          | [] => None
          | c :: t =>
              if (c =? 93)%N then Some ([v], t)
              else if (c =? 44)%N then
                match scan_items f (skip_ws t) with
                | Some (vs, r') => Some (v :: vs, r')
                | None => None
                end
              else None
          end
      end
  end
with scan_members (fuel : nat) (s : pystr) {struct fuel}
    : option (list (pystr * json) * pystr) :=
  match fuel with
  | O => None
  | S f =>
      match s with
      | [] => None
      | q :: t =>
          if negb (q =? 34)%N then None
          else
            match scan_string t with
            | None => None
            | Some (k, r) =>
                match skip_ws r with
                | [] => None
                | c :: r1 =>
                    if negb (c =? 58)%N then None
                    else
                      match scan_once f (skip_ws r1) with
                      | None => None
                      | Some (v, r2) =>
                          match skip_ws r2 with
                          | [] => None
                          | c2 :: t2 =>
                              if (c2 =? 125)%N then Some ([(k, v)], t2)
                              else if (c2 =? 44)%N then
                                match scan_members f (skip_ws t2) with
                                | Some (ms, r3) => Some ((k, v) :: ms, r3)
                                | None => None
                                end
                              else None
                          end
                      end
                end
            end
      end
  end.

(** [json.loads(s)]: one value, surrounded by white space only. *)
Definition json_loads (s : pystr) : option json :=
  match scan_once (S (length s)) (skip_ws s) with
  | Some (v, r) => match skip_ws r with [] => Some v | _ :: _ => None end
  | None => None
  end.

(** What may follow a number so that it is read to its end. *)
Definition ends_number (rest : pystr) : Prop :=
  match rest with
  | [] => True
  | c :: _ => is_digit c = false /\ c <> 46%N /\ c <> 101%N /\ c <> 69%N
  end.

(** The text of one member of an object. *)
Definition member_text (kv : pystr * json) : pystr :=
  json_quote (fst kv) ++ lit ": " ++ json_dumps (snd kv).

(* ===================================================================== *)
(** ** The file tree below the home directory *)
(* ===================================================================== *)

(** A regular file with its text, or a directory: the finite map from
    the names of its entries to their nodes. *)
Inductive node :=
  | File (content : pystr)
  | Dir (entries : gmap pystr node).

(** A [Path]: its components below [Path.home()]. *)
Abbreviation path := (list pystr).

(** The exceptions the file-system calls of the agent can raise; all are
    subclasses of [OSError], hence of [Exception]. *)
Inductive exn :=
  | FileNotFoundError
  | FileExistsError
  | NotADirectoryError
  | IsADirectoryError
  | DirectoryNotEmpty.

Inductive outcome (A : Type) :=
  | Done (a : A)
  | Fault (e : exn).
Arguments Done {A} a.
Arguments Fault {A} e.

(** Path resolution. *)
Fixpoint fs_find (p : path) (t : node) : outcome node :=
  match p with
  | [] => Done t
  | n :: r =>
      match t with
      | File _ => Fault NotADirectoryError
      | Dir m =>
          match m !! n with
          | None => Fault FileNotFoundError
          | Some c => fs_find r c
          end
      end
  end.

(** [p.is_dir()], [p.is_file()] *)
Definition is_dir (p : path) (t : node) : bool :=
  match fs_find p t with Done (Dir _) => true | _ => false end.

Definition is_file (p : path) (t : node) : bool :=
  match fs_find p t with Done (File _) => true | _ => false end.

(** A system call on the entry that the last component of [p] names:
    [f] maps the present entry (if any) to the new one, or fails.  The
    directory holding the entry must exist. *)
Fixpoint fs_change (f : option node -> outcome (option node)) (p : path) (t : node)
    : outcome node :=
  match t with
  | File _ => Fault NotADirectoryError
  | Dir m =>
      match p with
      | [] => Fault IsADirectoryError
      | n :: r =>
          match r with
          | [] =>
              match f (m !! n) with
              | Done o => Done (Dir (partial_alter (fun _ => o) n m))
              | Fault e => Fault e
              end
          | _ :: _ =>
              match m !! n with
              | None => Fault FileNotFoundError
              | Some c =>
                  match fs_change f r c with
                  | Done c' => Done (Dir (<[n:=c']> m))
                  | Fault e => Fault e
                  end
              end
          end
      end
  end.

(** [p.open("a").write(data)] *)
Definition sys_append (data : pystr) (o : option node) : outcome (option node) :=
  match o with
  | None => Done (Some (File data))
  | Some (File c) => Done (Some (File (c ++ data)))
  | Some (Dir _) => Fault IsADirectoryError
  end.

(** [p.write_text(data)] *)
Definition sys_write (data : pystr) (o : option node) : outcome (option node) :=
  match o with
  | Some (Dir _) => Fault IsADirectoryError
  | _ => Done (Some (File data))
  end.

(** [os.unlink(p)] *)
Definition sys_unlink (o : option node) : outcome (option node) :=
  match o with
  | None => Fault FileNotFoundError
  | Some (File _) => Done None
  | Some (Dir _) => Fault IsADirectoryError
  end.

(** [os.rmdir(p)]: only an empty directory is removed. *)
Definition sys_rmdir (o : option node) : outcome (option node) :=
  match o with
  | None => Fault FileNotFoundError
  | Some (File _) => Fault NotADirectoryError
  | Some (Dir m) =>
      match map_to_list m with
      | [] => Done None
      | _ :: _ => Fault DirectoryNotEmpty
      end
  end.

(** [p.unlink(missing_ok=True)] *)
Definition unlink_missing_ok (p : path) (t : node) : outcome node :=
  match fs_change sys_unlink p t with
  | Fault FileNotFoundError => Done t
  | r => r
  end.

(** [p.mkdir(parents=True, exist_ok=True)]: missing directories on the
    way are created; a regular file on the way or at [p] is an error. *)
Fixpoint mkdir_p (p : path) (t : node) : outcome node :=
  match t with
  | File _ =>
      Fault (match p with [] => FileExistsError | _ :: _ => NotADirectoryError end)
  | Dir m =>
      match p with
      | [] => Done t
      | n :: r =>
          match mkdir_p r (default (Dir ∅) (m !! n)) with
          | Done c => Done (Dir (<[n:=c]> m))
          | Fault e => Fault e
          end
      end
  end.

(** [list(p.iterdir())], in the order the system lists the entries. *)
Definition iterdir (p : path) (t : node) : outcome (list path) :=
  match fs_find p t with
  | Done (Dir m) => Done (map (fun kv => p ++ [fst kv]) (map_to_list m))
  | Done (File _) => Fault NotADirectoryError
  | Fault e => Fault e
  end.

(** The paths of everything below a directory, relative to it. *)
Fixpoint descendants (t : node) : list path :=
  match t with
  | File _ => []
  | Dir m =>
      map_fold (fun n c acc => ([n] :: map (cons n) (descendants c)) ++ acc) [] m
  end.

(** [list(p.rglob("*"))] *)
Definition rglob (p : path) (t : node) : list path :=
  match fs_find p t with
  | Done sub => map (app p) (descendants sub)
  | Fault _ => []
  end.

(** [p.name] *)
Definition path_name (p : path) : pystr := List.last p [].

(** [a <= b] on paths: component by component. *)
Fixpoint path_leb (a b : path) : bool :=
  match a, b with
  | [], _ => true
  | _ :: _, [] => false
  | x :: a', y :: b' =>
      if bool_decide (x = y) then path_leb a' b' else str_leb x y
  end.

Definition path_le (a b : path) : Prop := path_leb a b = true.

#[global] Instance path_le_dec a b : Decision (path_le a b) :=
  decide (path_leb a b = true).

(** [sorted(l, key=lambda p: p.name)] *)
Definition sorted_by_name (l : list path) : list path :=
  merge_sort (fun a b => str_le (path_name a) (path_name b)) l.

(** [sorted(l, reverse=True)] *)
Definition sorted_reverse (l : list path) : list path :=
  merge_sort (fun a b => path_le b a) l.

(* ===================================================================== *)
(** ** The agent *)
(* ===================================================================== *)

(** The module constants read from the environment at import time. *)
Record config := {
  SYSTEM_BRAIN_DIR : pystr;
  PYTHON_BIN : pystr;
  OLLAMA_BIN : pystr;
  CMD_TIMEOUT_SEC : Z;
  EVIDENCE_KEEP : Z
}.

Definition AGENT_DIR : path := [lit "system-brain-agent"].
Definition LOG_DIR : path := AGENT_DIR ++ [lit "logs"].
Definition EVENT_LOG : path := LOG_DIR ++ [lit "events.jsonl"].
Definition EVIDENCE_DIR : path := LOG_DIR ++ [lit "evidence"].

(** What [subprocess.run(cmd, shell=True, capture_output=True, text=True,
    timeout=...)] does: the process completes with an exit status and its
    two streams, or the call raises an [Exception] ([TimeoutExpired],
    [OSError], ...) whose [str()] is [msg]. *)
Inductive proc :=
  | Completed (returncode : Z) (stdout stderr : option pystr)
  | Failed (msg : pystr).

(** A query to the operating system outside the agent's own files. *)
Inductive query :=
  | QRun (cmd : pystr) (timeout : Z)
  | QExists (p : pystr).

(** The outside world of one run: the clock, and the answer to each
    query, which may depend on how many queries went before. *)
Record env := {
  now : datetime;
  exec : nat -> pystr -> Z -> proc;
  path_exists : nat -> pystr -> bool
}.

(** The state a run works on: the file tree below the home directory and
    the queries made so far, oldest first. *)
Record world := {
  fs : node;
  queries : list query
}.

Definition set_fs (t : node) (w : world) : world :=
  {| fs := t; queries := queries w |}.

Definition asked (q : query) (w : world) : world :=
  {| fs := fs w; queries := queries w ++ [q] |}.

(** A call returns a value or raises; either way it leaves a world. *)
Inductive result (A : Type) :=
  | Ok (a : A) (w : world)
  | Raise (e : exn) (w : world).
Arguments Ok {A} a w.
Arguments Raise {A} e w.

Definition M (A : Type) : Type := world -> result A.

Definition ret {A} (a : A) : M A := fun w => Ok a w.

Definition bind {A B} (m : M A) (k : A -> M B) : M B :=
  fun w => match m w with Ok a w' => k a w' | Raise e w' => Raise e w' end.

Notation "'do' x <- m ; k" := (bind m (fun x => k))
  (at level 10, x pattern, m at level 100, k at level 200,
   format "'[v' 'do'  x  <-  m ; '/' k ']'").
Notation "m ;; k" := (bind m (fun _ => k))
  (at level 100, k at level 200, right associativity).

(** [try: m  except Exception: pass] *)
Definition try_pass (m : M unit) : M unit :=
  fun w => match m w with Ok a w' => Ok a w' | Raise _ w' => Ok tt w' end.

(** [for x in l: body(x)] *)
Fixpoint for_each {A} (l : list A) (body : A -> M unit) : M unit :=
  match l with
  | [] => ret tt
  | x :: rest => body x ;; for_each rest body
  end.

(** A system call that changes the file tree. *)
Definition fs_call (op : node -> outcome node) : M unit :=
  fun w => match op (fs w) with
           | Done t => Ok tt (set_fs t w)
           | Fault e => Raise e w
           end.

(** A system call that reads the file tree. *)
Definition fs_read {A} (op : node -> outcome A) : M A :=
  fun w => match op (fs w) with
           | Done a => Ok a w
           | Fault e => Raise e w
           end.

Record CmdResult := {
  ok : bool;
  rc : Z;
  out : pystr;
  err : pystr;
  cmd : pystr
}.

(** [r.__dict__] *)
Definition CmdResult_dict (r : CmdResult) : json :=
  JObj [(lit "ok", JBool (ok r)); (lit "rc", JInt (rc r)); (lit "out", JStr (out r));
        (lit "err", JStr (err r)); (lit "cmd", JStr (cmd r))].

Section Agent.

Variable C : config.
Variable E : env.

(** The body of [run]: the [CmdResult] built from what [subprocess.run]
    did; the [except Exception] branch handles [Failed]. *)
Definition run_result (c : pystr) (p : proc) : CmdResult :=
  match p with
  | Completed returncode stdout stderr =>
      {| ok := (returncode =? 0)%Z;
         rc := returncode;
         out := strip (default [] stdout);
         err := strip (default [] stderr);
         cmd := c |}
  | Failed msg =>
      {| ok := false; rc := 1%Z; out := []; err := msg; cmd := c |}
  end.

Definition run (c : pystr) (timeout : Z) : M CmdResult :=
  fun w =>
    Ok (run_result c (exec E (length (queries w)) c timeout))
       (asked (QRun c timeout) w).

(** [SYSTEM_BRAIN_DIR.exists()] *)
Definition brain_dir_exists : M bool :=
  fun w =>
    Ok (path_exists E (length (queries w)) (SYSTEM_BRAIN_DIR C))
       (asked (QExists (SYSTEM_BRAIN_DIR C)) w).

Definition ensure_dirs : M unit :=
  fs_call (mkdir_p LOG_DIR) ;;
  fs_call (mkdir_p EVIDENCE_DIR).

Definition write_event (event : json) : M unit :=
  fs_call (fs_change (sys_append (json_dumps event ++ [10%N])) EVENT_LOG).

Definition evidence_bundle_dir (ts : pystr) : path :=
  EVIDENCE_DIR ++ [str_replace (lit ":") (lit "-") ts].

Definition write_file (p : path) (content : pystr) : M unit :=
  fs_call (fs_change (sys_write content) p).

(** The body of the inner [try] of [prune_evidence] for one bundle. *)
Definition remove_bundle (p : path) : M unit :=
  do children <- fs_read (fun t => Done (sorted_reverse (rglob p t)));
  for_each children (fun child =>
    do f <- fs_read (fun t => Done (is_file child t));
    if f then fs_call (unlink_missing_ok child) else ret tt) ;;
  fs_call (fs_change sys_rmdir p).

(** The sorted list [bundles] of [prune_evidence]. *)
Definition list_bundles (t : node) : outcome (list path) :=
  match iterdir EVIDENCE_DIR t with
  | Done l => Done (sorted_by_name (filter (fun p => is_dir p t = true) l))
  | Fault e => Fault e
  end.

Definition prune_evidence (keep : Z) : M unit :=
  if (keep <=? 0)%Z then ret tt
  else fun w =>
    match list_bundles (fs w) with
    | Fault FileNotFoundError => Ok tt w
    | Fault e => Raise e w
    | Done bundles =>
        let excess := (Z.of_nat (length bundles) - keep)%Z in
        if (excess <=? 0)%Z then Ok tt w
        else
          for_each (take (Z.to_nat excess) bundles)
            (fun p => try_pass (remove_bundle p)) w
    end.

Definition check_ollama_active : M (bool * json) :=
  do r <- run (lit "systemctl is-active ollama.service") 10;
  ret (ok r && bool_decide (out r = lit "active"),
       JObj [(lit "systemctl_is_active", CmdResult_dict r)]).

Definition port_command : pystr := lit "ss -ltnp | grep -E '(:|\.)11434\b' || true".

Definition check_port : M (bool * json) :=
  do r <- run port_command 10;
  ret (contains (lit "11434") (out r),
       JObj [(lit "ss_grep_11434", CmdResult_dict r)]).

Definition check_ollama_list : M (bool * json) :=
  do r <- run (OLLAMA_BIN C ++ lit " list") 20;
  ret (ok r && (0 <? length (out r))%nat,
       JObj [(lit "ollama_list", CmdResult_dict r);
             (lit "ollama_bin", JStr (OLLAMA_BIN C))]).

Definition compile_command : pystr :=
  PYTHON_BIN C ++ lit " -m py_compile " ++ SYSTEM_BRAIN_DIR C ++ lit "/*.py".

Definition check_compile : M (bool * json) :=
  do present <- brain_dir_exists;
  if negb present then
    ret (false,
         JObj [(lit "system_brain_dir", JStr (SYSTEM_BRAIN_DIR C));
               (lit "error", JStr (lit "SYSTEM_BRAIN_DIR missing"))])
  else
    do r <- run compile_command 30;
    ret (ok r,
         JObj [(lit "system_brain_dir", JStr (SYSTEM_BRAIN_DIR C));
               (lit "py_compile", CmdResult_dict r)]).

(** The table [cmds] of [snapshot], in insertion order. *)
Definition snapshot_cmds : list (pystr * pystr) :=
  [(lit "systemctl_ollama_status.txt",
    lit "systemctl status ollama.service --no-pager -l || true");
   (lit "journal_ollama_tail.txt",
    lit "journalctl -u ollama.service -n 200 --no-pager || true");
   (lit "ports_ss_full.txt", lit "ss -ltnp || true");
   (lit "ip_addr.txt", lit "ip a || true");
   (lit "nmcli_device_status.txt", lit "nmcli device status || true");
   (lit "ollama_list.txt", OLLAMA_BIN C ++ lit " list || true");
   (lit "compile_check.txt", compile_command ++ lit " || true")].

(** The text of one artifact file. *)
Definition artifact_text (c : pystr) (r : CmdResult) : pystr :=
  lit "CMD: " ++ c ++ [10%N] ++ lit "OK: " ++ str_of_bool (ok r) ++ [10%N] ++
  lit "RC: " ++ str_of_int (rc r) ++ [10%N; 10%N] ++ lit "STDOUT:" ++ [10%N] ++
  out r ++ [10%N; 10%N] ++ lit "STDERR:" ++ [10%N] ++ err r ++ [10%N].

Definition snapshot (ts : pystr) (details : json) : M unit :=
  let bundle := evidence_bundle_dir ts in
  fs_call (mkdir_p bundle) ;;
  write_file (bundle ++ [lit "details.json"]) (json_dumps_indent 0 details) ;;
  for_each snapshot_cmds (fun fc =>
    do r <- run (snd fc) 30;
    write_file (bundle ++ [fst fc]) (artifact_text (snd fc) r)).

(** The dict [status] of [main]. *)
Definition status_map (ok1 ok2 ok3 ok4 : bool) : list (pystr * bool) :=
  [(lit "ollama_active", ok1); (lit "port_11434_listening", ok2);
   (lit "ollama_list_ok", ok3); (lit "system_brain_compile_ok", ok4)].


Definition event_json (ts : pystr) (overall : bool) (status : list (pystr * bool)) : json :=
  JObj [(lit "timestamp", JStr ts); (lit "overall_ok", JBool overall);
        (lit "status", JObj (map (fun kb => (fst kb, JBool (snd kb))) status))].


End Agent.


(* ===================================================================== *)
(** ** Notions used to state the properties *)
(* ===================================================================== *)

(** [sub] occurs in [s] as a contiguous run of code points. *)
Definition occurs (sub s : pystr) : Prop :=
  exists pre post, s = pre ++ sub ++ post.

(** [t] neither starts nor ends with white space. *)
Definition trimmed (t : pystr) : Prop :=
  (forall c r, t = c :: r -> isspace c = false) /\
  (forall c r, t = r ++ [c] -> isspace c = false).

(** [t] is [s] without its leading and trailing white space. *)
Definition trim_of (s t : pystr) : Prop :=
  exists pre post,
    s = pre ++ t ++ post /\
    forallb isspace pre = true /\ forallb isspace post = true /\ trimmed t.

(** The status of the shell list [a || b]: [b] runs only when [a] fails. *)
Definition sh_or (left right : Z) : Z := if (left =? 0)%Z then 0%Z else right.

(** The status of the shell builtin [true]. *)
Definition sh_true : Z := 0%Z.

(** The tree [t] with the node at the existing path [p] replaced by [v]. *)
Fixpoint fs_put (p : path) (v : node) (t : node) : node :=
  match p with
  | [] => v
  | n :: r =>
      match t with
      | File _ => t
      | Dir m =>
          match m !! n with
          | None => t
          | Some c => Dir (<[n := fs_put r v c]> m)
          end
      end
  end.

(** What is at a path: nothing, a directory, or a file with its text. *)
Inductive kind :=
  | Absent
  | IsDir
  | IsFile (content : pystr).

Definition peek (p : path) (t : node) : kind :=
  match fs_find p t with
  | Done (File c) => IsFile c
  | Done (Dir _) => IsDir
  | Fault _ => Absent
  end.

(** A tree without its regular files, at every depth; the directories
    stay. *)
Fixpoint strip_files (t : node) : node :=
  match t with
  | File c => File c
  | Dir m =>
      Dir (omap (fun c => match c with
                          | File _ => None
                          | Dir _ => Some (strip_files c)
                          end) m)
  end.

Definition is_dir_node (c : node) : bool :=
  match c with Dir _ => true | File _ => false end.

(** The directory at [p] holds at least one directory. *)
Definition has_subdir (p : path) (t : node) : bool :=
  match fs_find p t with
  | Done (Dir m) => existsb (fun kv => is_dir_node (snd kv)) (map_to_list m)
  | _ => false
  end.

(** No regular file stands at [p] or on the way to it: [p] is a
    directory, or the path ends where a directory has no such entry. *)
Definition dir_or_absent (p : path) (t : node) : bool :=
  match fs_find p t with
  | Done (Dir _) | Fault FileNotFoundError => true
  | _ => false
  end.





(** The number of nodes of a tree. *)
Fixpoint node_size (t : node) : nat :=
  match t with
  | File _ => 1
  | Dir m => S (map_fold (fun _ c acc => node_size c + acc) 0 m)
  end.

(** One round of the inner loop of [prune_evidence] on the tree of a
    bundle: the file at [q], if it is one, is unlinked. *)
Definition unlink_if_file (q : path) (b : node) : node :=
  if is_file q b then
    match unlink_missing_ok q b with
    | Done b' => b'
    | Fault _ => b
    end
  else b.

(** What one round of the outer loop of [prune_evidence] makes of the
    entry of a bundle: the files of the bundle go, at every depth, and
    the bundle goes when nothing is left in it; an entry that is no
    directory stays as it is. *)
Definition pruned_entry (o : option node) : option node :=
  match o with
  | Some (Dir b) =>
      match strip_files (Dir b) with
      | Dir b' =>
          match map_to_list b' with
          | [] => None
          | _ :: _ => Some (Dir b')
          end
      | File _ => o
      end
  | _ => o
  end.

Definition prune_step (n : pystr) (ev : gmap pystr node) : gmap pystr node :=
  partial_alter pruned_entry n ev.

(** The number of bundles [prune_evidence] takes from the front of the
    sorted list. *)
Definition excess_of (keep : Z) (bundles : list path) : nat :=
  Z.to_nat (Z.of_nat (length bundles) - keep).

(** The order [sorted(..., key=lambda p: p.name)] sorts by. *)
Definition name_le (a b : path) : Prop := str_le (path_name a) (path_name b).





(* ===================================================================== *)
(** ** Notions used to state further properties *)
(* ===================================================================== *)

(** The [w] last decimal digits of [n], most significant first. *)
Fixpoint fixed_digits (w : nat) (n : N) : pystr :=
  match w with
  | O => []
  | S w' => fixed_digits w' (n / 10)%N ++ [digit (n mod 10)%N]
  end.

(** A timestamp as [utc_ts] writes it, with [sep] between hours, minutes
    and seconds. *)
Definition stamp (sep : pystr) (d : datetime) : pystr :=
  fixed_digits 4 (year d) ++ lit "-" ++ fixed_digits 2 (month d) ++ lit "-" ++
  fixed_digits 2 (day d) ++ lit "T" ++ fixed_digits 2 (hour d) ++ sep ++
  fixed_digits 2 (minute d) ++ sep ++ fixed_digits 2 (second d) ++
  (if (microsecond d =? 0)%N then [] else lit "." ++ fixed_digits 6 (microsecond d)) ++
  lit "Z".

(** Two instants are printed with the same precision. *)
Definition same_precision (d1 d2 : datetime) : Prop :=
  microsecond d1 = 0%N <-> microsecond d2 = 0%N.






(** The text of one member of an object written with an indent, at
    nesting level [lvl]. *)
Definition member_text_indent (lvl : nat) (kv : pystr * json) : pystr :=
  json_quote (fst kv) ++ lit ": " ++ json_dumps_indent lvl (snd kv).



(* ===================================================================== *)
(** ** Facts about strings *)
(* ===================================================================== *)

Lemma lstrip_split s :
  exists pre, s = pre ++ lstrip s /\ forallb isspace pre = true.
Proof.
  induction s as [|c t [pre [Heq Hpre]]]; simpl.
  - exists []. done.
  - destruct (isspace c) eqn:Hc.
    + exists (c :: pre). simpl. rewrite Hc, Hpre. split; [congruence | done].
    + exists []. done.
Qed.

Lemma lstrip_head s c r : lstrip s = c :: r -> isspace c = false.
Proof.
  induction s as [|a t IH]; simpl; [done|].
  destruct (isspace a) eqn:Ha; [exact IH|].
  intros [= <- _]. exact Ha.
Qed.

Lemma forallb_rev {A} (f : A -> bool) l : forallb f (rev l) = forallb f l.
Proof.
  induction l as [|x l IH]; simpl; [done|].
  rewrite forallb_app, IH. simpl. rewrite andb_true_r. apply andb_comm.
Qed.

Lemma strip_trim_of s : trim_of s (strip s).
Proof.
  unfold strip, rstrip.
  destruct (lstrip_split s) as [pre [Hs Hpre]].
  destruct (lstrip_split (rev (lstrip s))) as [post [Hr Hpost]].
  assert (Hl : lstrip s = rev (lstrip (rev (lstrip s))) ++ rev post).
  { rewrite <- rev_app_distr, <- Hr, rev_involutive. done. }
  exists pre, (rev post). repeat split.
  - rewrite <- Hl. exact Hs.
  - exact Hpre.
  - rewrite forallb_rev. exact Hpost.
  - intros c r Hc. rewrite Hc in Hl. simpl in Hl.
    apply (lstrip_head s c _ Hl).
  - intros c r Hc.
    apply (f_equal (@rev N)) in Hc. rewrite rev_involutive, rev_app_distr in Hc.
    simpl in Hc. apply (lstrip_head _ _ _ Hc).
Qed.

Lemma startswith_spec p s : startswith p s = true <-> exists r, s = p ++ r.
Proof.
  revert s; induction p as [|a p IH]; intros s; simpl.
  - split; [intros _; by exists s | done].
  - destruct s as [|b s].
    + split; [done | intros [r Hr]; discriminate].
    + rewrite andb_true_iff, N.eqb_eq, IH. split.
      * intros [-> [r ->]]. by exists r.
      * intros [r [= -> ->]]. split; [done | by exists r].
Qed.

Lemma contains_spec sub s : contains sub s = true <-> occurs sub s.
Proof.
  unfold occurs. induction s as [|c t IH]; simpl.
  - rewrite orb_false_r, startswith_spec. split.
    + intros [r Hr]. exists [], r. done.
    + intros [pre [post H]]. destruct pre; [by exists post|discriminate].
  - rewrite orb_true_iff, startswith_spec, IH. split.
    + intros [[r Hr] | [pre [post H]]].
      * exists [], r. done.
      * exists (c :: pre), post. simpl. by rewrite H.
    + intros [pre [post H]]. destruct pre as [|a pre]; simpl in H.
      * left. by exists post.
      * right. injection H as -> ->. by exists pre, post.
Qed.

Lemma occurs_rev sub s : occurs sub s -> occurs (rev sub) (rev s).
Proof.
  intros [pre [post ->]]. exists (rev post), (rev pre).
  rewrite !rev_app_distr, <- app_assoc. done.
Qed.

Lemma contains_rev sub s : contains (rev sub) (rev s) = contains sub s.
Proof.
  apply eq_true_iff_eq. rewrite !contains_spec. split.
  - intros H. apply occurs_rev in H. by rewrite !rev_involutive in H.
  - apply occurs_rev.
Qed.

Lemma contains_lstrip c0 sub s :
  isspace c0 = false ->
  contains (c0 :: sub) (lstrip s) = contains (c0 :: sub) s.
Proof.
  intros Hc0. induction s as [|c t IH]; [done|].
  cbn [lstrip]. destruct (isspace c) eqn:Hc; [|done].
  rewrite IH. cbn [contains startswith].
  destruct (N.eqb_spec c0 c) as [->|_]; [congruence | done].
Qed.

(** Stripping neither hides nor creates an occurrence of a text that
    starts and ends with a code point that is no white space. *)
Lemma contains_strip sub s :
  (exists c r, sub = c :: r /\ isspace c = false) ->
  (exists c r, sub = r ++ [c] /\ isspace c = false) ->
  contains sub (strip s) = contains sub s.
Proof.
  intros [c [r [-> Hc]]] [c' [r' [Hsub Hc']]].
  unfold strip, rstrip.
  rewrite <- contains_rev, rev_involutive.
  rewrite Hsub, rev_app_distr. simpl.
  rewrite contains_lstrip by done.
  change (c' :: rev r') with (rev [c'] ++ rev r').
  rewrite <- rev_app_distr, <- Hsub, contains_rev.
  by apply contains_lstrip.
Qed.

(** *** The order of strings *)


Lemma str_leb_total a : forall b, str_leb a b = true \/ str_leb b a = true.
Proof.
  induction a as [|x a IH]; intros [|y b]; simpl; try tauto.
  destruct (N.ltb_spec x y), (N.ltb_spec y x), (N.eqb_spec x y), (N.eqb_spec y x);
    try tauto; try lia. apply IH.
Qed.

Lemma str_leb_trans a : forall b c,
  str_leb a b = true -> str_leb b c = true -> str_leb a c = true.
Proof.
  induction a as [|x a IH]; intros [|y b] [|z c]; simpl; try done.
  destruct (N.ltb_spec x y), (N.ltb_spec y z), (N.ltb_spec x z),
    (N.eqb_spec x y), (N.eqb_spec y z), (N.eqb_spec x z);
    try done; try lia. apply IH.
Qed.

Lemma str_leb_antisym a : forall b,
  str_leb a b = true -> str_leb b a = true -> a = b.
Proof.
  induction a as [|x a IH]; intros [|y b]; simpl; try done.
  destruct (N.ltb_spec x y), (N.ltb_spec y x), (N.eqb_spec x y), (N.eqb_spec y x);
    try done; try lia. intros H1 H2. subst. f_equal. by apply IH.
Qed.

(* ===================================================================== *)
(** ** Facts about the file tree *)
(* ===================================================================== *)

Lemma fs_find_app p q t :
  fs_find (p ++ q) t =
  match fs_find p t with Done s => fs_find q s | Fault e => Fault e end.
Proof.
  revert t. induction p as [|n r IH]; intros t; simpl; [done|].
  destruct t as [c|m]; [done|]. destruct (m !! n); [apply IH | done].
Qed.

Lemma fs_find_put p v t s :
  fs_find p t = Done s -> fs_find p (fs_put p v t) = Done v.
Proof.
  revert t. induction p as [|n r IH]; intros t; simpl; [done|].
  destruct t as [c|m]; [done|]. destruct (m !! n) as [c|] eqn:Hn; [|done].
  intros H. simpl. rewrite lookup_insert_eq. by apply IH.
Qed.

Lemma fs_find_put_app p q v t s :
  fs_find p t = Done s -> fs_find (p ++ q) (fs_put p v t) = fs_find q v.
Proof. intros H. by rewrite fs_find_app, (fs_find_put _ _ _ _ H). Qed.

Lemma fs_put_put p v v' t : fs_put p v (fs_put p v' t) = fs_put p v t.
Proof.
  revert t. induction p as [|n r IH]; intros t; simpl; [done|].
  destruct t as [c|m]; [done|]. destruct (m !! n) as [c|] eqn:Hn; simpl.
  - rewrite lookup_insert_eq, insert_insert_eq, IH. done.
  - by rewrite Hn.
Qed.

Lemma fs_put_app p q v t s :
  fs_find p t = Done s -> fs_put (p ++ q) v t = fs_put p (fs_put q v s) t.
Proof.
  revert t. induction p as [|n r IH]; intros t; simpl.
  - by intros [= ->].
  - destruct t as [c|m]; [done|]. destruct (m !! n) as [c|] eqn:Hn; [|done].
    intros H. by rewrite (IH _ H).
Qed.

Lemma fs_put_same p t s : fs_find p t = Done s -> fs_put p s t = t.
Proof.
  revert t. induction p as [|n r IH]; intros t; simpl.
  - by intros [= ->].
  - destruct t as [c|m]; [done|]. destruct (m !! n) as [c|] eqn:Hn; [|done].
    intros H. rewrite (IH _ H). by rewrite insert_id.
Qed.

(** A change below an existing directory is a change of that directory. *)
Lemma fs_change_app f p q t :
  q <> [] ->
  fs_change f (p ++ q) t =
  match fs_find p t with
  | Done s =>
      match fs_change f q s with
      | Done s' => Done (fs_put p s' t)
      | Fault e => Fault e
      end
  | Fault e => Fault e
  end.
Proof.
  intros Hq. revert t. induction p as [|n r IH]; intros t.
  - simpl. by destruct (fs_change f q t).
  - destruct t as [c|m]; [done|].
    change ((n :: r) ++ q) with (n :: (r ++ q)).
    cbn [fs_change fs_find fs_put].
    destruct (r ++ q) as [|x l] eqn:Hrq.
    { apply app_eq_nil in Hrq as [_ ?]. done. }
    destruct (m !! n) as [c|] eqn:Hn; [|done].
    rewrite IH. destruct (fs_find r c) as [s|e]; [|done].
    by destruct (fs_change f q s).
Qed.

Lemma fs_change_entry f n m :
  fs_change f [n] (Dir m) =
  match f (m !! n) with
  | Done o => Done (Dir (partial_alter (fun _ => o) n m))
  | Fault e => Fault e
  end.
Proof. done. Qed.

Lemma mkdir_p_app p q t s :
  fs_find p t = Done s ->
  mkdir_p (p ++ q) t =
  match mkdir_p q s with
  | Done s' => Done (fs_put p s' t)
  | Fault e => Fault e
  end.
Proof.
  revert t. induction p as [|n r IH]; intros t; simpl.
  - intros [= ->]. by destruct (mkdir_p q s).
  - destruct t as [c|m]; [done|]. destruct (m !! n) as [c|] eqn:Hn; [|done].
    intros H. simpl. rewrite (IH _ H). by destruct (mkdir_p q s).
Qed.

Lemma mkdir_p_present p t m :
  fs_find p t = Done (Dir m) -> mkdir_p p t = Done t.
Proof.
  intros H. rewrite <- (app_nil_r p), (mkdir_p_app _ _ _ _ H). simpl.
  by rewrite (fs_put_same _ _ _ H).
Qed.

Lemma mkdir_p_fresh p t :
  fs_find p t = Fault FileNotFoundError ->
  exists t', mkdir_p p t = Done t' /\ fs_find p t' = Done (Dir ∅).
Proof.
  revert t. induction p as [|n r IH]; intros t; simpl; [done|].
  destruct t as [c|m]; [done|]. destruct (m !! n) as [c|] eqn:Hn; simpl.
  - intros H. destruct (IH _ H) as [c' [-> Hc']].
    eexists. split; [done|]. simpl. by rewrite lookup_insert_eq.
  - intros _. destruct r as [|n' r'].
    + eexists. split; [done|]. simpl. by rewrite lookup_insert_eq.
    + destruct (IH (Dir ∅)) as [c' [-> Hc']].
      { simpl. by rewrite lookup_empty. }
      eexists. split; [done|]. simpl. by rewrite lookup_insert_eq.
Qed.

(** Creating one more level below an existing directory. *)
Lemma mkdir_p_entry p n t m :
  fs_find p t = Done (Dir m) ->
  mkdir_p (p ++ [n]) t =
  match m !! n with
  | None => Done (fs_put p (Dir (<[n := Dir ∅]> m)) t)
  | Some (Dir b) => Done t
  | Some (File _) => Fault FileExistsError
  end.
Proof.
  intros H. rewrite (mkdir_p_app _ _ _ _ H). simpl.
  destruct (m !! n) as [[c|b]|] eqn:Hn; simpl; try done.
  by rewrite insert_id, (fs_put_same _ _ _ H).
Qed.

(** *** The monad *)

Lemma bind_Ok {A B} (m : M A) (k : A -> M B) w a w' :
  m w = Ok a w' -> bind m k w = k a w'.
Proof. unfold bind. by intros ->. Qed.

Lemma bind_Raise {A B} (m : M A) (k : A -> M B) w e w' :
  m w = Raise e w' -> bind m k w = Raise e w'.
Proof. unfold bind. by intros ->. Qed.

Lemma fs_call_Done op w t :
  op (fs w) = Done t -> fs_call op w = Ok tt (set_fs t w).
Proof. unfold fs_call. by intros ->. Qed.

Lemma fs_call_Fault op w e :
  op (fs w) = Fault e -> fs_call op w = Raise e w.
Proof. unfold fs_call. by intros ->. Qed.

Ltac lit_neq := let H := fresh in intros H; vm_compute in H; discriminate H.

(** *** [ensure_dirs] *)

Arguments AGENT_DIR : simpl never.
Arguments LOG_DIR : simpl never.
Arguments EVENT_LOG : simpl never.
Arguments EVIDENCE_DIR : simpl never.
Arguments lit : simpl never.

Lemma fs_find_entry n m :
  fs_find [n] (Dir m) =
  match m !! n with Some c => Done c | None => Fault FileNotFoundError end.
Proof. simpl. by destruct (m !! n). Qed.

Lemma ensure_dirs_spec w :
  dir_or_absent EVIDENCE_DIR (fs w) = true ->
  exists t' L,
    ensure_dirs w = Ok tt (set_fs t' w) /\
    fs_find LOG_DIR t' = Done (Dir L) /\
    L !! lit "evidence" =
      Some (Dir (match fs_find EVIDENCE_DIR (fs w) with
                 | Done (Dir ev) => ev
                 | _ => ∅
                 end)) /\
    L !! lit "events.jsonl" =
      match fs_find EVENT_LOG (fs w) with Done c => Some c | Fault _ => None end.
Proof.
  unfold dir_or_absent, ensure_dirs, EVIDENCE_DIR, EVENT_LOG.
  rewrite !fs_find_app. intros Hc.
  destruct (fs_find LOG_DIR (fs w)) as [[c|L0]|e] eqn:HL.
  - done.
  - erewrite bind_Ok; [|apply fs_call_Done, (mkdir_p_present _ _ _ HL)].
    rewrite !fs_find_entry in *.
    destruct (L0 !! lit "evidence") as [[c|ev]|] eqn:Hev; try done.
    + exists (fs w), L0. split.
      * rewrite (fs_call_Done _ _ (fs w)); [done|].
        cbn [fs set_fs]. rewrite (mkdir_p_entry _ _ _ _ HL), Hev. done.
      * split; [done|]. split; [done|].
        by destruct (L0 !! lit "events.jsonl").
    + eexists _, _. split.
      * erewrite fs_call_Done; [reflexivity|]. cbn [fs set_fs].
        rewrite (mkdir_p_entry _ _ _ _ HL), Hev. done.
      * split; [by apply (fs_find_put _ _ _ _ HL)|]. split.
        -- by rewrite lookup_insert_eq.
        -- rewrite lookup_insert_ne by lit_neq. by destruct (L0 !! lit "events.jsonl").
  - destruct e; try done.
    destruct (mkdir_p_fresh _ _ HL) as [t1 [Hmk Hf]].
    erewrite bind_Ok; [|apply fs_call_Done, Hmk].
    eexists _, _. split.
    + erewrite fs_call_Done; [reflexivity|]. cbn [fs set_fs].
      rewrite (mkdir_p_entry _ _ _ _ Hf), lookup_empty. done.
    + split; [by apply (fs_find_put _ _ _ _ Hf)|]. split.
      * by rewrite lookup_insert_eq.
      * rewrite lookup_insert_ne by lit_neq. by rewrite lookup_empty.
Qed.

(** *** [write_event] *)

Lemma write_event_spec ev w L :
  fs_find LOG_DIR (fs w) = Done (Dir L) ->
  write_event ev w =
  match L !! lit "events.jsonl" with
  | None =>
      Ok tt (set_fs (fs_put LOG_DIR
        (Dir (<[lit "events.jsonl" := File (json_dumps ev ++ [10%N])]> L)) (fs w)) w)
  | Some (File c) =>
      Ok tt (set_fs (fs_put LOG_DIR
        (Dir (<[lit "events.jsonl" := File (c ++ json_dumps ev ++ [10%N])]> L)) (fs w)) w)
  | Some (Dir _) => Raise IsADirectoryError w
  end.
Proof.
  intros HL. unfold write_event, fs_call, EVENT_LOG.
  rewrite fs_change_app by done. rewrite HL, fs_change_entry.
  by destruct (L !! lit "events.jsonl") as [[c|b]|].
Qed.

(** What [write_event] leaves at [EVENT_LOG] when it returns. *)
Lemma fs_find_event_log t L c :
  fs_find LOG_DIR t = Done (Dir L) ->
  fs_find EVENT_LOG (fs_put LOG_DIR (Dir (<[lit "events.jsonl" := File c]> L)) t) =
  Done (File c).
Proof.
  intros HL. unfold EVENT_LOG. rewrite (fs_find_put_app _ _ _ _ _ HL).
  by rewrite fs_find_entry, lookup_insert_eq.
Qed.

(* ===================================================================== *)
(** ** Facts about [json.dumps] and the reader *)
(* ===================================================================== *)


(** *** Decimal numbers *)

Lemma is_digit_digit d : (d < 10)%N -> is_digit (digit d) = true.
Proof. unfold is_digit, digit. intros H. apply andb_true_iff. split; apply N.leb_le; lia. Qed.

Lemma decimal_fuel_digits f n : Forall (fun c => is_digit c = true) (decimal_fuel f n).
Proof.
  revert n. induction f as [|f IH]; intros n; simpl; [constructor|].
  destruct (N.ltb_spec n 10).
  - constructor; [by apply is_digit_digit | constructor].
  - apply Forall_app. split; [apply IH|].
    constructor; [|constructor]. apply is_digit_digit. by apply N.mod_lt.
Qed.

Lemma decimal_fuel_nonempty f n : decimal_fuel (S f) n <> [].
Proof.
  simpl. destruct (n <? 10)%N; [done|]. by destruct (decimal_fuel f (n / 10)).
Qed.

Lemma scan_digits_app acc ds rest :
  Forall (fun c => is_digit c = true) ds ->
  scan_digits acc (ds ++ rest) =
  scan_digits (fold_left (fun a c => a * 10 + (c - 48))%N ds acc) rest.
Proof.
  intros H. revert acc. induction H as [|c ds Hc _ IH]; intros acc; simpl; [done|].
  by rewrite Hc, IH.
Qed.

Lemma decimal_fuel_value f n :
  (n < 10 ^ N.of_nat f)%N ->
  fold_left (fun a c => a * 10 + (c - 48))%N (decimal_fuel f n) 0%N = n.
Proof.
  revert n. induction f as [|f IH]; intros n Hn.
  - simpl in *. lia.
  - cbn [decimal_fuel]. destruct (N.ltb_spec n 10).
    + simpl. unfold digit. lia.
    + rewrite fold_left_app. cbn [fold_left]. rewrite IH.
      * unfold digit. pose proof (N.div_mod n 10 ltac:(lia)).
        pose proof (N.mod_lt n 10 ltac:(lia)).
        remember (n / 10)%N as q. remember (n mod 10)%N as r. lia.
      * rewrite Nat2N.inj_succ, N.pow_succ_r' in Hn.
        apply N.Div0.div_lt_upper_bound. lia.
Qed.

Lemma decimal_fuel_head f n :
  (0 < n < 10 ^ N.of_nat f)%N ->
  exists c t, decimal_fuel f n = c :: t /\ c <> 48%N.
Proof.
  revert n. induction f as [|f IH]; intros n [Hpos Hn].
  - simpl in Hn. lia.
  - cbn [decimal_fuel]. destruct (N.ltb_spec n 10).
    + eexists _, _. split; [done|]. unfold digit. lia.
    + destruct (IH (n / 10)%N) as [c [t [-> Hc]]].
      * split.
        -- apply N.div_str_pos. lia.
        -- rewrite Nat2N.inj_succ, N.pow_succ_r' in Hn.
           apply N.Div0.div_lt_upper_bound. lia.
      * eexists _, _. split; [done|]. exact Hc.
Qed.

Lemma decimal_bound n : (n < 10 ^ N.of_nat (S (N.to_nat (N.log2 n))))%N.
Proof.
  rewrite Nat2N.inj_succ, N2Nat.id.
  destruct (N.eq_dec n 0%N) as [->|Hn]; [done|].
  pose proof (N.log2_spec n ltac:(lia)) as [_ Hlt].
  eapply N.lt_le_trans; [exact Hlt|].
  apply N.pow_le_mono_l. lia.
Qed.

Lemma scan_digits_stop acc rest :
  ends_number rest -> scan_digits acc rest = (acc, rest).
Proof. destruct rest as [|c t]; [done|]. simpl. by intros [-> _]. Qed.

Lemma float_follows_false rest : ends_number rest -> float_follows rest = false.
Proof.
  destruct rest as [|c t]; [done|]. simpl. intros [_ [H1 [H2 H3]]].
  by rewrite !orb_false_iff, !N.eqb_neq.
Qed.

Lemma scan_nat_decimal n rest :
  ends_number rest -> scan_nat (decimal n ++ rest) = Some (n, rest).
Proof.
  intros Hrest. unfold decimal.
  destruct (N.eq_dec n 0%N) as [->|Hn]; [done|].
  destruct (decimal_fuel_head (S (N.to_nat (N.log2 n))) n) as [c [t [Hd Hc]]].
  { split; [lia | apply decimal_bound]. }
  pose proof (decimal_fuel_digits (S (N.to_nat (N.log2 n))) n) as Hdig.
  pose proof (decimal_fuel_value _ _ (decimal_bound n)) as Hval.
  unfold scan_nat. rewrite Hd in *. cbn [app].
  apply N.eqb_neq in Hc. rewrite Hc.
  pose proof Hdig as Hdig'. apply Forall_cons in Hdig' as [Hc' _]. rewrite Hc'.
  change (c :: t ++ rest) with ((c :: t) ++ rest).
  rewrite scan_digits_app by done. rewrite Hval.
  by rewrite scan_digits_stop.
Qed.

Lemma str_of_int_head z :
  exists c t, str_of_int z = c :: t /\ (c = 45%N \/ is_digit c = true).
Proof.
  unfold str_of_int, decimal. destruct (z <? 0)%Z.
  - eexists _, _. split; [reflexivity | by left].
  - pose proof (decimal_fuel_digits (S (N.to_nat (N.log2 (Z.to_N z)))) (Z.to_N z)) as H.
    pose proof (decimal_fuel_nonempty (N.to_nat (N.log2 (Z.to_N z))) (Z.to_N z)) as Hne.
    destruct (decimal_fuel _ _) as [|c t]; [done|].
    apply Forall_cons in H as [H _]. eexists _, _. split; [done | by right].
Qed.

Lemma scan_int_str_of_int z rest :
  ends_number rest -> scan_int (str_of_int z ++ rest) = Some (z, rest).
Proof.
  intros Hrest. unfold str_of_int. destruct (Z.ltb_spec z 0).
  - change (lit "-") with [45%N]. cbn [app scan_int N.eqb Pos.eqb].
    rewrite scan_nat_decimal, float_follows_false by done.
    do 2 f_equal. lia.
  - pose proof (scan_nat_decimal (Z.to_N z) rest Hrest) as Hs.
    pose proof (decimal_fuel_digits (S (N.to_nat (N.log2 (Z.to_N z)))) (Z.to_N z)) as H'.
    pose proof (decimal_fuel_nonempty (N.to_nat (N.log2 (Z.to_N z))) (Z.to_N z)) as Hne.
    unfold decimal in *. destruct (decimal_fuel _ _) as [|c t]; [done|].
    pose proof H' as H''. apply Forall_cons in H'' as [Hc _].
    cbn [app scan_int] in *.
    assert (Hc45 : (c =? 45)%N = false).
    { unfold is_digit in Hc. apply andb_true_iff in Hc as [Hc _].
      apply N.leb_le in Hc. apply N.eqb_neq. lia. }
    rewrite Hc45, Hs, float_follows_false by done.
    do 2 f_equal. lia.
Qed.

(** *** Strings *)

Lemma N_lt_32_cases (c : N) :
  (c < 32)%N -> In c (map N.of_nat (seq 0 32)).
Proof. intros H. rewrite <- (N2Nat.id c). apply in_map, in_seq. lia. Qed.

Ltac escape_case tl :=
  match goal with
  | |- context [escape_char ?c] =>
      let e := eval vm_compute in (escape_char c) in
      change (escape_char c) with e
  end;
  simpl; by destruct (scan_string tl) as [[? ?]|].

(** Reading back one escaped code point. *)
Lemma scan_string_escape c tl :
  scan_string (escape_char c ++ tl) =
  match scan_string tl with
  | Some (r, rest) => Some (c :: r, rest)
  | None => None
  end.
Proof.
  destruct (N.ltb_spec c 32) as [Hlt|Hge].
  - apply N_lt_32_cases in Hlt. vm_compute in Hlt.
    repeat (destruct Hlt as [<-|Hlt]; [escape_case tl|]).
    done.
  - destruct (N.eqb_spec c 34) as [->|H34]; [escape_case tl|].
    destruct (N.eqb_spec c 92) as [->|H92]; [escape_case tl|].
    unfold escape_char.
    destruct (N.eqb_spec c 34) as [?|_]; [done|].
    destruct (N.eqb_spec c 92) as [?|_]; [done|].
    destruct (N.eqb_spec c 10) as [->|_]; [lia|].
    destruct (N.eqb_spec c 13) as [->|_]; [lia|].
    destruct (N.eqb_spec c 9) as [->|_]; [lia|].
    destruct (N.eqb_spec c 8) as [->|_]; [lia|].
    destruct (N.eqb_spec c 12) as [->|_]; [lia|].
    destruct (N.ltb_spec c 32) as [?|_]; [lia|].
    cbn [app scan_string].
    destruct (N.eqb_spec c 34) as [?|_]; [done|].
    destruct (N.eqb_spec c 92) as [?|_]; [done|].
    destruct (N.ltb_spec c 32) as [?|_]; [lia|]. done.
Qed.

Lemma scan_string_quote s rest :
  scan_string (flat_map escape_char s ++ 34%N :: rest) = Some (s, rest).
Proof.
  induction s as [|c s IH]; [done|].
  cbn [flat_map]. rewrite <- app_assoc, scan_string_escape, IH. done.
Qed.


(** *** Values *)

Ltac unlit :=
  repeat match goal with
         | |- context [lit ?s] =>
             let e := eval vm_compute in (lit s) in change (lit s) with e
         | H : context [lit ?s] |- _ =>
             let e := eval vm_compute in (lit s) in change (lit s) with e in H
         end.

Lemma json_dumps_head v rest :
  exists c t, json_dumps v ++ rest = c :: t /\ is_ws c = false /\ c <> 93%N.
Proof.
  destruct v as [ |[|]|z|s|l|ms]; cbn [json_dumps]; unlit;
    try (eexists _, _; split; [reflexivity|]; split; [reflexivity | lia]).
  destruct (str_of_int_head z) as [c [t [-> Hc]]].
  eexists _, _. split; [reflexivity|].
  destruct Hc as [->|Hc]; [split; [reflexivity | lia]|].
  unfold is_digit in Hc. apply andb_true_iff in Hc as [H1 H2].
  apply N.leb_le in H1, H2. unfold is_ws.
  rewrite !orb_false_iff, !N.eqb_neq. lia.
Qed.

Lemma skip_ws_json_dumps v rest : skip_ws (json_dumps v ++ rest) = json_dumps v ++ rest.
Proof.
  destruct (json_dumps_head v rest) as [c [t [-> [Hc _]]]]. simpl. by rewrite Hc.
Qed.

Lemma json_dumps_length v : 1 <= length (json_dumps v).
Proof.
  destruct (json_dumps_head v []) as [c [t [H _]]].
  rewrite app_nil_r in H. rewrite H. simpl. lia.
Qed.

Lemma str_join_cons2 sep x y l :
  str_join sep (x :: y :: l) = x ++ sep ++ str_join sep (y :: l).
Proof. done. Qed.

Lemma str_join_head sep x l rest :
  exists rest',
    str_join sep (map json_dumps (x :: l)) ++ rest = json_dumps x ++ rest'.
Proof.
  destruct l as [|y l].
  - by exists rest.
  - cbn [map]. rewrite str_join_cons2, <- app_assoc. by eexists.
Qed.

Lemma member_text_scan kv rest :
  member_text kv ++ rest =
  34%N :: flat_map escape_char (fst kv) ++
  34%N :: 58%N :: 32%N :: json_dumps (snd kv) ++ rest.
Proof.
  unfold member_text, json_quote. unlit.
  cbn [app]. rewrite <- !app_assoc. done.
Qed.

Lemma member_text_length kv :
  length (member_text kv) =
  length (flat_map escape_char (fst kv)) + 4 + length (json_dumps (snd kv)).
Proof.
  pose proof (f_equal (@length N) (member_text_scan kv [])) as H.
  rewrite app_nil_r in H. rewrite H. cbn [length].
  rewrite length_app. cbn [length]. rewrite app_nil_r. lia.
Qed.

Lemma members_head sep kv ms rest :
  exists t, str_join sep (map member_text (kv :: ms)) ++ rest = 34%N :: t.
Proof.
  destruct ms as [|y ms]; cbn [map]; [|rewrite str_join_cons2];
    unfold member_text at 1, json_quote; by eexists.
Qed.

Lemma scan_roundtrip fuel :
  (forall v rest,
      length (json_dumps v) <= fuel -> ends_number rest ->
      scan_once fuel (json_dumps v ++ rest) = Some (v, rest)) /\
  (forall l rest,
      l <> [] ->
      length (str_join (lit ", ") (map json_dumps l)) < fuel ->
      scan_items fuel (str_join (lit ", ") (map json_dumps l) ++ 93%N :: rest)
      = Some (l, rest)) /\
  (forall ms rest,
      ms <> [] ->
      length (str_join (lit ", ") (map member_text ms)) < fuel ->
      scan_members fuel (str_join (lit ", ") (map member_text ms) ++ 125%N :: rest)
      = Some (ms, rest)).
Proof.
  induction fuel as [|f [IHv [IHi IHm]]].
  { split; [|split]; intros; try lia.
    pose proof (json_dumps_length v). lia. }
  split; [|split].
  - intros v rest Hlen Hrest. destruct v as [ |[|]|z|s|l|ms].
    + reflexivity.
    + reflexivity.
    + reflexivity.
    + cbn [json_dumps].
      pose proof (scan_int_str_of_int z rest Hrest) as Hs.
      destruct (str_of_int_head z) as [c [t [Heq Hc]]].
      rewrite Heq in *. cbn [app scan_once].
      assert (Hne : c <> 34%N /\ c <> 123%N /\ c <> 91%N /\ c <> 110%N /\
                    c <> 116%N /\ c <> 102%N).
      { destruct Hc as [->|Hc]; [lia|].
        unfold is_digit in Hc. apply andb_true_iff in Hc as [H1 H2].
        apply N.leb_le in H1, H2. lia. }
      destruct Hne as (H1 & H2 & H3 & H4 & H5 & H6).
      apply N.eqb_neq in H1, H2, H3. rewrite H1, H2, H3.
      unlit. cbn [startswith].
      assert (H4' : (110 =? c)%N = false) by (apply N.eqb_neq; lia).
      assert (H5' : (116 =? c)%N = false) by (apply N.eqb_neq; lia).
      assert (H6' : (102 =? c)%N = false) by (apply N.eqb_neq; lia).
      rewrite H4', H5', H6'. cbn [andb].
      cbn [app] in Hs. by rewrite Hs.
    + cbn [json_dumps]. unfold json_quote. cbn [app scan_once N.eqb Pos.eqb].
      rewrite <- app_assoc. cbn [app]. by rewrite scan_string_quote.
    + cbn [json_dumps] in *. unlit. destruct l as [|x l]; [reflexivity|].
      cbn [app scan_once N.eqb Pos.eqb].
      rewrite <- app_assoc. cbn [app].
      assert (Hi : scan_items f
                (str_join [44; 32]%N (map json_dumps (x :: l)) ++ 93%N :: rest)
              = Some (x :: l, rest)).
      { apply (IHi (x :: l) rest); [done|].
        rewrite !length_app in Hlen. cbn [length] in Hlen. lia. }
      destruct (str_join_head [44; 32]%N x l (93%N :: rest)) as [rest' Hj].
      destruct (json_dumps_head x rest') as [c [t [Heq [Hc Hc']]]].
      rewrite Hj, Heq in Hi |- *. cbn [skip_ws]. rewrite Hc.
      apply N.eqb_neq in Hc'. rewrite Hc'. by rewrite Hi.
    + cbn [json_dumps] in *.
      change (fun kv : pystr * json => json_quote (fst kv) ++ lit ": " ++ json_dumps (snd kv))
        with member_text in *.
      unlit. destruct ms as [|[k x] ms]; [reflexivity|].
      cbn [app scan_once N.eqb Pos.eqb].
      rewrite <- app_assoc. cbn [app].
      assert (Hm : scan_members f
                (str_join [44; 32]%N (map member_text ((k, x) :: ms)) ++ 125%N :: rest)
              = Some ((k, x) :: ms, rest)).
      { apply (IHm ((k, x) :: ms) rest); [done|].
        rewrite !length_app in Hlen. cbn [length] in Hlen. lia. }
      destruct (members_head [44; 32]%N (k, x) ms (125%N :: rest)) as [t Ht].
      rewrite Ht in Hm |- *. cbn [skip_ws is_ws N.eqb Pos.eqb orb].
      cbn [N.eqb Pos.eqb]. by rewrite Hm.
  - intros l rest Hne Hlen. destruct l as [|v vs]; [done|].
    change (lit ", ") with [44; 32]%N in *.
    cbn [scan_items]. destruct vs as [|v2 vs].
    + cbn [map str_join] in *.
      rewrite IHv; [|lia|simpl; repeat split; lia || done].
      reflexivity.
    + cbn [map] in *. rewrite str_join_cons2 in *.
      rewrite !length_app in Hlen. cbn [length] in Hlen.
      rewrite <- !app_assoc. cbn [app].
      rewrite IHv; [|lia|simpl; repeat split; lia || done].
      cbn [skip_ws is_ws N.eqb Pos.eqb orb]. cbn [N.eqb Pos.eqb].
      assert (Hsk : skip_ws (str_join [44; 32]%N (json_dumps v2 :: map json_dumps vs)
                             ++ 93%N :: rest)
                    = str_join [44; 32]%N (json_dumps v2 :: map json_dumps vs)
                      ++ 93%N :: rest).
      { change (json_dumps v2 :: map json_dumps vs) with (map json_dumps (v2 :: vs)).
        destruct (str_join_head [44; 32]%N v2 vs (93%N :: rest)) as [rest' ->].
        apply skip_ws_json_dumps. }
      rewrite Hsk.
      change (json_dumps v2 :: map json_dumps vs) with (map json_dumps (v2 :: vs)) in *.
      rewrite (IHi (v2 :: vs) rest); [done|done|lia].
  - intros ms rest Hne Hlen. destruct ms as [|[k v] ms]; [done|].
    change (lit ", ") with [44; 32]%N in *.
    destruct ms as [|m2 ms].
    + cbn [map str_join] in *. rewrite member_text_length in Hlen.
      rewrite member_text_scan. cbn [scan_members N.eqb Pos.eqb negb fst snd].
      rewrite scan_string_quote.
      cbn [skip_ws is_ws N.eqb Pos.eqb orb negb]. cbn [N.eqb Pos.eqb negb].
      rewrite skip_ws_json_dumps.
      rewrite IHv; [|cbn [fst snd] in Hlen; lia|simpl; repeat split; lia || done].
      reflexivity.
    + cbn [map] in *. rewrite str_join_cons2 in *.
      rewrite !length_app, member_text_length in Hlen. cbn [length fst snd] in Hlen.
      rewrite <- !app_assoc. rewrite member_text_scan.
      cbn [scan_members N.eqb Pos.eqb negb fst snd].
      rewrite scan_string_quote.
      cbn [skip_ws is_ws N.eqb Pos.eqb orb negb]. cbn [N.eqb Pos.eqb negb].
      rewrite skip_ws_json_dumps.
      rewrite IHv; [|lia|simpl; repeat split; lia || done].
      cbn [app skip_ws is_ws N.eqb Pos.eqb orb]. cbn [N.eqb Pos.eqb].
      assert (Hsk : skip_ws (str_join [44; 32]%N (member_text m2 :: map member_text ms)
                             ++ 125%N :: rest)
                    = str_join [44; 32]%N (member_text m2 :: map member_text ms)
                      ++ 125%N :: rest).
      { change (member_text m2 :: map member_text ms) with (map member_text (m2 :: ms)).
        by destruct (members_head [44; 32]%N m2 ms (125%N :: rest)) as [t ->]. }
      rewrite Hsk.
      change (member_text m2 :: map member_text ms) with (map member_text (m2 :: ms)) in *.
      rewrite (IHm (m2 :: ms) rest); [done|done|lia].
Qed.


(** *** One document per line *)







(* ===================================================================== *)
(** ** Facts about trees: what is at each path *)
(* ===================================================================== *)

Lemma node_size_child m n c :
  m !! n = Some c -> node_size c < node_size (Dir m).
Proof.
  intros H. cbn [node_size].
  rewrite <- (insert_delete_id m n c H).
  rewrite map_fold_insert_L.
  - lia.
  - intros. lia.
  - apply lookup_delete_eq.
Qed.

Lemma node_ind' (P : node -> Prop) :
  (forall c, P (File c)) ->
  (forall m, (forall n c, m !! n = Some c -> P c) -> P (Dir m)) ->
  forall t, P t.
Proof.
  intros Hf Hd t.
  induction t as [t IH] using (induction_ltof1 _ node_size). unfold ltof in IH.
  destruct t as [c|m]; [apply Hf|].
  apply Hd. intros n c Hn. apply IH. by apply node_size_child in Hn.
Qed.

Lemma peek_nil t : peek [] t = match t with File c => IsFile c | Dir _ => IsDir end.
Proof. done. Qed.

Lemma peek_cons n r m :
  peek (n :: r) (Dir m) = match m !! n with Some c => peek r c | None => Absent end.
Proof. unfold peek. simpl. by destruct (m !! n). Qed.

Lemma peek_cons_File n r c : peek (n :: r) (File c) = Absent.
Proof. done. Qed.


Lemma is_file_peek q t :
  is_file q t = match peek q t with IsFile _ => true | _ => false end.
Proof. unfold is_file, peek. by destruct (fs_find q t) as [[c|m]|e]. Qed.

(** Two trees with the same thing at every path are the same tree. *)
Lemma peek_ext t1 : forall t2, (forall q, peek q t1 = peek q t2) -> t1 = t2.
Proof.
  induction t1 as [c1|m1 IH] using node_ind'; intros [c2|m2] H.
  - specialize (H []). rewrite !peek_nil in H. congruence.
  - specialize (H []). by rewrite !peek_nil in H.
  - specialize (H []). by rewrite !peek_nil in H.
  - f_equal. apply map_eq. intros n.
    pose proof (H [n]) as Hn. rewrite !peek_cons in Hn.
    destruct (m1 !! n) as [c1|] eqn:H1, (m2 !! n) as [c2|] eqn:H2.
    + f_equal. apply (IH n c1 H1). intros q.
      specialize (H (n :: q)). by rewrite !peek_cons, H1, H2 in H.
    + by destruct c1.
    + by destruct c2.
    + done.
Qed.

Lemma peek_strip_files q : forall t,
  peek q (strip_files t) =
  match q with
  | [] => peek [] t
  | _ :: _ => match peek q t with IsFile _ => Absent | k => k end
  end.
Proof.
  induction q as [|n r IH]; intros [c|m]; try done.
  cbn [strip_files]. rewrite !peek_cons, lookup_omap.
  destruct (m !! n) as [[c|m']|]; cbn [option_bind mbind]; try done.
  - by destruct r.
  - rewrite IH. destruct r; [done|]. done.
Qed.

Lemma fs_change_deeper f n n2 r m :
  fs_change f (n :: n2 :: r) (Dir m) =
  match m !! n with
  | None => Fault FileNotFoundError
  | Some c =>
      match fs_change f (n2 :: r) c with
      | Done c' => Done (Dir (<[n:=c']> m))
      | Fault e => Fault e
      end
  end.
Proof. done. Qed.

(** Unlinking the file at [q] changes what is at [q] and nothing else. *)
Lemma unlink_peek q : forall b,
  q <> [] -> is_file q b = true ->
  exists b', fs_change sys_unlink q b = Done b' /\
    forall q', peek q' b' = if bool_decide (q' = q) then Absent else peek q' b.
Proof.
  induction q as [|n r IH]; intros b Hq Hf; [done|].
  destruct b as [c|m]; [done|].
  rewrite is_file_peek, peek_cons in Hf.
  destruct (m !! n) as [c|] eqn:Hn; [|done].
  destruct r as [|n2 r2].
  - destruct c as [x|m']; [|done].
    rewrite fs_change_entry, Hn. eexists. split; [reflexivity|].
    intros [|n' r']; [done|]. rewrite !peek_cons.
    change (partial_alter (fun _ => None) n m) with (delete n m).
    destruct (decide (n' = n)) as [->|Hne].
    + rewrite lookup_delete_eq, Hn. case_bool_decide; [done|].
      destruct r'; [done|]. done.
    + rewrite lookup_delete_ne by done. case_bool_decide; [congruence | done].
  - destruct (IH c) as [c' [Hc' Hpeek]]; [done | by rewrite is_file_peek |].
    rewrite fs_change_deeper, Hn, Hc'. eexists. split; [reflexivity|].
    intros [|n' r']; [done|]. rewrite !peek_cons.
    destruct (decide (n' = n)) as [->|Hne].
    + rewrite lookup_insert_eq, Hn, Hpeek.
      repeat case_bool_decide; congruence.
    + rewrite lookup_insert_ne by done. case_bool_decide; [congruence | done].
Qed.

Lemma unlink_if_file_peek q b q' :
  q <> [] ->
  peek q' (unlink_if_file q b) =
  if bool_decide (q' = q) && is_file q b then Absent else peek q' b.
Proof.
  intros Hq. unfold unlink_if_file, unlink_missing_ok.
  destruct (is_file q b) eqn:Hf; [|by rewrite andb_false_r].
  destruct (unlink_peek q b Hq Hf) as [b' [-> Hp]].
  rewrite Hp, andb_true_r. done.
Qed.

Lemma unlink_fold_peek qs : forall b q',
  Forall (fun q => q <> []) qs ->
  peek q' (fold_left (fun b q => unlink_if_file q b) qs b) =
  if bool_decide (q' ∈ qs) && is_file q' b then Absent else peek q' b.
Proof.
  induction qs as [|q qs IH]; intros b q' Hqs.
  - cbn [fold_left]. rewrite bool_decide_eq_false_2; [done|]. apply not_elem_of_nil.
  - apply Forall_cons in Hqs as [Hq Hqs]. cbn [fold_left].
    rewrite IH by done. rewrite (is_file_peek q' (unlink_if_file q b)).
    rewrite !unlink_if_file_peek by done.
    destruct (decide (q' = q)) as [->|Hne].
    + rewrite (bool_decide_eq_true_2 (q = q)) by done.
      rewrite (bool_decide_eq_true_2 (q ∈ q :: qs)) by (apply elem_of_cons; by left).
      cbn [andb]. destruct (is_file q b) eqn:Hf.
      * by destruct (bool_decide (q ∈ qs)).
      * rewrite is_file_peek in Hf.
        destruct (peek q b); try done; by rewrite andb_false_r.
    + rewrite (bool_decide_eq_false_2 (q' = q)) by done. cbn [andb].
      rewrite <- is_file_peek.
      assert (Hin : bool_decide (q' ∈ q :: qs) = bool_decide (q' ∈ qs)).
      { apply bool_decide_ext. rewrite elem_of_cons. tauto. }
      by rewrite Hin.
Qed.

(** Unlinking every file below a directory, in any order, leaves the
    directories alone. *)
Lemma unlink_all_strip_files m qs :
  Forall (fun q => q <> []) qs ->
  (forall q, is_file q (Dir m) = true -> q ∈ qs) ->
  fold_left (fun b q => unlink_if_file q b) qs (Dir m) = strip_files (Dir m).
Proof.
  intros Hne Hall. apply peek_ext. intros q'.
  rewrite unlink_fold_peek by done. rewrite peek_strip_files.
  destruct q' as [|n r].
  - rewrite bool_decide_eq_false_2; [done|].
    intros Hin. rewrite Forall_forall in Hne. by apply Hne in Hin.
  - destruct (is_file (n :: r) (Dir m)) eqn:Hf.
    + rewrite bool_decide_eq_true_2 by (by apply Hall). cbn [andb].
      rewrite is_file_peek in Hf. by destruct (peek (n :: r) (Dir m)).
    + rewrite andb_false_r. rewrite is_file_peek in Hf.
      by destruct (peek (n :: r) (Dir m)).
Qed.

(* ===================================================================== *)
(** ** Facts about [prune_evidence] *)
(* ===================================================================== *)

Lemma descendants_spec m q :
  In q (descendants (Dir m)) <->
  exists n c, m !! n = Some c /\
    (q = [n] \/ exists q', q = n :: q' /\ In q' (descendants c)).
Proof.
  cbn [descendants].
  apply (map_fold_weak_ind
    (fun acc m' => In q acc <->
       exists n c, m' !! n = Some c /\
         (q = [n] \/ exists q', q = n :: q' /\ In q' (descendants c)))).
  - split; [done|]. intros [n [c [H _]]]. by rewrite lookup_empty in H.
  - intros i x m' r Hi IH. rewrite in_app_iff, IH. cbn [In]. rewrite in_map_iff.
    split.
    + intros [[Hq|[q' [Hq Hq']]]|[n [c [Hn Hc]]]].
      * exists i, x. rewrite lookup_insert_eq. by split; [|left].
      * exists i, x. rewrite lookup_insert_eq. split; [done|]. right. by exists q'.
      * exists n, c. split; [|done]. rewrite lookup_insert_ne; [done|]. congruence.
    + intros [n [c [Hn Hc]]]. destruct (decide (i = n)) as [->|Hne].
      * rewrite lookup_insert_eq in Hn. injection Hn as ->. left.
        destruct Hc as [->|[q' [-> Hq']]]; [by left|]. right. by exists q'.
      * rewrite lookup_insert_ne in Hn by done. right. by exists n, c.
Qed.

Lemma descendants_nonempty t : Forall (fun q => q <> []) (descendants t).
Proof.
  apply Forall_forall. intros q Hq. apply list_elem_of_In in Hq.
  destruct t as [c|m]; [done|].
  apply descendants_spec in Hq as [n [c [_ [->|[q' [-> _]]]]]]; done.
Qed.

Lemma is_file_descendants q : forall m,
  is_file q (Dir m) = true -> In q (descendants (Dir m)).
Proof.
  induction q as [|n r IH]; intros m Hf; [done|].
  rewrite is_file_peek, peek_cons in Hf.
  destruct (m !! n) as [c|] eqn:Hn; [|done].
  apply descendants_spec. exists n, c. split; [done|].
  destruct r as [|n2 r2]; [by left|]. right. exists (n2 :: r2). split; [done|].
  destruct c as [x|m']; [done|]. apply IH. by rewrite is_file_peek.
Qed.

Lemma set_fs_same w : set_fs (fs w) w = w.
Proof. by destruct w. Qed.

(** The inner loop of [prune_evidence] changes the tree of the bundle
    alone, one [unlink_if_file] per child. *)
Lemma unlink_loop p qs : forall w b,
  fs_find p (fs w) = Done b ->
  Forall (fun q => q <> []) qs ->
  for_each (map (app p) qs)
    (fun child =>
       do f <- fs_read (fun t => Done (is_file child t));
       if f then fs_call (unlink_missing_ok child) else ret tt) w
  = Ok tt (set_fs (fs_put p (fold_left (fun b q => unlink_if_file q b) qs b) (fs w)) w).
Proof.
  induction qs as [|q qs IH]; intros w b Hp Hqs.
  - cbn [map for_each fold_left]. by rewrite (fs_put_same _ _ _ Hp), set_fs_same.
  - apply Forall_cons in Hqs as [Hq Hqs]. cbn [map for_each fold_left].
    unfold bind at 1. unfold bind at 1. unfold fs_read at 1.
    assert (Hfile : is_file (p ++ q) (fs w) = is_file q b).
    { unfold is_file. by rewrite fs_find_app, Hp. }
    rewrite Hfile. unfold unlink_if_file.
    destruct (is_file q b) eqn:Hf.
    + destruct (unlink_peek q b Hq Hf) as [b' [Hb' _]].
      unfold fs_call, unlink_missing_ok. rewrite fs_change_app, Hp, Hb' by done.
      rewrite (IH _ b'); [|by apply (fs_find_put _ _ _ _ Hp)|done].
      cbn [fs set_fs]. by rewrite fs_put_put.
    + unfold ret. by rewrite (IH _ b).
Qed.

Lemma sorted_reverse_map p qs :
  exists qs', sorted_reverse (map (app p) qs) = map (app p) qs' /\ qs ≡ₚ qs'.
Proof.
  apply Permutation_map_inv. apply merge_sort_Permutation.
Qed.

Lemma prune_step_unfold n ev :
  prune_step n ev =
  match pruned_entry (ev !! n) with
  | Some x => <[n := x]> ev
  | None => delete n ev
  end.
Proof.
  unfold prune_step.
  destruct (pruned_entry (ev !! n)) eqn:H;
    apply partial_alter_ext; by intros ? <-.
Qed.

(** One round of the outer loop, exceptions swallowed. *)
Lemma remove_bundle_spec d n w ev :
  fs_find d (fs w) = Done (Dir ev) ->
  try_pass (remove_bundle (d ++ [n])) w =
  Ok tt (set_fs (fs_put d (Dir (prune_step n ev)) (fs w)) w).
Proof.
  intros Hd. rewrite prune_step_unfold. unfold try_pass, remove_bundle, pruned_entry.
  unfold bind at 1. unfold fs_read at 1. unfold rglob.
  rewrite fs_find_app, Hd, fs_find_entry.
  destruct (ev !! n) as [[c|b]|] eqn:Hn.
  - cbn [descendants map]. change (sorted_reverse []) with (@nil path).
    cbn [for_each]. unfold bind, ret, fs_call.
    rewrite fs_change_app, Hd, fs_change_entry, Hn by done. cbn [sys_rmdir].
    by rewrite insert_id, (fs_put_same _ _ _ Hd), set_fs_same.
  - destruct (sorted_reverse_map (d ++ [n]) (descendants (Dir b))) as [qs [-> Hperm]].
    assert (Hp : fs_find (d ++ [n]) (fs w) = Done (Dir b)).
    { by rewrite fs_find_app, Hd, fs_find_entry, Hn. }
    unfold bind at 1.
    rewrite (unlink_loop _ _ _ _ Hp).
    2:{ rewrite <- Hperm. apply descendants_nonempty. }
    rewrite unlink_all_strip_files.
    2:{ rewrite <- Hperm. apply descendants_nonempty. }
    2:{ intros q Hq. rewrite <- Hperm. apply list_elem_of_In.
        by apply is_file_descendants. }
    rewrite (fs_put_app _ _ _ _ _ Hd). cbn [fs_put]. rewrite Hn.
    unfold fs_call. cbn [fs set_fs].
    rewrite fs_change_app, (fs_find_put _ _ _ _ Hd), fs_change_entry by done.
    rewrite lookup_insert_eq.
    destruct (strip_files (Dir b)) as [c|b'] eqn:Hs; [done|].
    cbn [sys_rmdir]. destruct (map_to_list b') as [|kv l].
    + rewrite fs_put_put.
      change (partial_alter (fun _ => None) n (<[n:=Dir b']> ev))
        with (delete n (<[n:=Dir b']> ev)).
      by rewrite delete_insert_eq.
    + done.
  - cbn [map]. change (sorted_reverse []) with (@nil path).
    cbn [for_each]. unfold bind, ret, fs_call.
    rewrite fs_change_app, Hd, fs_change_entry, Hn by done. cbn [sys_rmdir].
    by rewrite delete_id, (fs_put_same _ _ _ Hd), set_fs_same.
Qed.

(** The outer loop. *)
Lemma prune_loop d ns : forall w ev,
  fs_find d (fs w) = Done (Dir ev) ->
  for_each (map (fun n => d ++ [n]) ns) (fun p => try_pass (remove_bundle p)) w =
  Ok tt (set_fs (fs_put d (Dir (fold_left (fun e n => prune_step n e) ns ev)) (fs w)) w).
Proof.
  induction ns as [|n ns IH]; intros w ev Hd.
  - cbn [map for_each fold_left]. by rewrite (fs_put_same _ _ _ Hd), set_fs_same.
  - cbn [map for_each fold_left]. unfold bind at 1.
    rewrite (remove_bundle_spec _ _ _ _ Hd).
    rewrite (IH _ (prune_step n ev)); [|by apply (fs_find_put _ _ _ _ Hd)].
    cbn [fs set_fs]. by rewrite fs_put_put.
Qed.

(** *** The sorted list of bundles *)

#[local] Instance name_le_total : Total name_le.
Proof. intros a b. apply str_leb_total. Qed.

#[local] Instance name_le_trans : Transitive name_le.
Proof. intros a b c. apply str_leb_trans. Qed.

Lemma path_name_entry d n : path_name (d ++ [n]) = n.
Proof. unfold path_name. apply last_last. Qed.

Lemma is_dir_entry d n t ev :
  fs_find d t = Done (Dir ev) ->
  is_dir (d ++ [n]) t = match ev !! n with Some (Dir _) => true | _ => false end.
Proof.
  intros Hd. unfold is_dir. rewrite fs_find_app, Hd, fs_find_entry.
  by destruct (ev !! n) as [[c|b]|].
Qed.

Lemma list_bundles_inv t bundles :
  list_bundles t = Done bundles ->
  exists ev, fs_find EVIDENCE_DIR t = Done (Dir ev).
Proof.
  unfold list_bundles, iterdir.
  destruct (fs_find EVIDENCE_DIR t) as [[c|ev]|e]; try done. by exists ev.
Qed.

Lemma list_bundles_spec t ev :
  fs_find EVIDENCE_DIR t = Done (Dir ev) ->
  exists bundles,
    list_bundles t = Done bundles /\
    NoDup bundles /\
    StronglySorted name_le bundles /\
    (forall p, p ∈ bundles <->
               exists n b, p = EVIDENCE_DIR ++ [n] /\ ev !! n = Some (Dir b)).
Proof.
  intros Hev. unfold list_bundles, iterdir. rewrite Hev.
  eexists. split; [reflexivity|]. unfold sorted_by_name.
  change (fun a b => str_le (path_name a) (path_name b)) with name_le.
  split; [|split].
  - rewrite merge_sort_Permutation. apply NoDup_filter.
    change (map (fun kv : pystr * node => EVIDENCE_DIR ++ [fst kv]) (map_to_list ev))
      with ((fun kv : pystr * node => EVIDENCE_DIR ++ [fst kv]) <$> map_to_list ev).
    apply NoDup_fmap_2_strong; [|apply NoDup_map_to_list].
    intros [n1 c1] [n2 c2] H1 H2 Heq. cbn [fst] in Heq.
    apply app_inv_head in Heq. injection Heq as ->.
    apply elem_of_map_to_list in H1, H2. congruence.
  - apply StronglySorted_merge_sort; apply _.
  - intros p. rewrite merge_sort_Permutation, list_elem_of_filter.
    change (map (fun kv : pystr * node => EVIDENCE_DIR ++ [fst kv]) (map_to_list ev))
      with ((fun kv : pystr * node => EVIDENCE_DIR ++ [fst kv]) <$> map_to_list ev).
    rewrite list_elem_of_fmap. split.
    + intros [Hdir [[n c] [-> Hin]]]. cbn [fst] in *.
      apply elem_of_map_to_list in Hin.
      rewrite (is_dir_entry _ _ _ _ Hev), Hin in Hdir.
      destruct c as [x|b]; [done|]. by exists n, b.
    + intros [n [b [-> Hn]]]. split.
      * by rewrite (is_dir_entry _ _ _ _ Hev), Hn.
      * exists (n, Dir b). split; [done|]. by apply elem_of_map_to_list.
Qed.

Lemma list_bundles_shape t bundles :
  list_bundles t = Done bundles ->
  bundles = map (fun n => EVIDENCE_DIR ++ [n]) (map path_name bundles).
Proof.
  intros H. destruct (list_bundles_inv _ _ H) as [ev Hev].
  destruct (list_bundles_spec _ _ Hev) as [bs [Hbs [_ [_ Hin]]]].
  rewrite H in Hbs. injection Hbs as <-.
  rewrite map_map. rewrite <- (map_id bundles) at 1.
  apply map_ext_in. intros p Hp. apply list_elem_of_In, Hin in Hp.
  destruct Hp as [n [b [-> _]]]. by rewrite path_name_entry.
Qed.

(** *** The entries after the outer loop *)

Lemma prune_fold_lookup ns : forall ev n,
  NoDup ns ->
  fold_left (fun e n => prune_step n e) ns ev !! n =
  if bool_decide (n ∈ ns) then pruned_entry (ev !! n) else ev !! n.
Proof.
  induction ns as [|n0 ns IH]; intros ev n Hnd; [done|].
  apply NoDup_cons in Hnd as [Hn0 Hnd]. cbn [fold_left].
  rewrite IH by done. unfold prune_step.
  destruct (decide (n = n0)) as [->|Hne].
  - rewrite (bool_decide_eq_false_2 (n0 ∈ ns)) by done.
    rewrite (bool_decide_eq_true_2 (n0 ∈ n0 :: ns)) by (apply elem_of_cons; by left).
    by rewrite lookup_partial_alter_eq.
  - rewrite lookup_partial_alter_ne by done.
    assert (Hin : bool_decide (n ∈ n0 :: ns) = bool_decide (n ∈ ns)).
    { apply bool_decide_ext. rewrite elem_of_cons. tauto. }
    by rewrite Hin.
Qed.

(** A stripped bundle is empty exactly when the bundle held files only. *)
Lemma strip_files_empty b :
  match strip_files (Dir b) with
  | Dir b' => map_to_list b' = [] <->
              existsb (fun kv => is_dir_node (snd kv)) (map_to_list b) = false
  | File _ => False
  end.
Proof.
  cbn [strip_files]. rewrite map_to_list_empty_iff, map_empty.
  split.
  - intros H. apply not_true_iff_false. intros Hex.
    apply existsb_exists in Hex as [[n c] [Hin Hc]]. cbn [snd] in Hc.
    apply list_elem_of_In, elem_of_map_to_list in Hin.
    specialize (H n). rewrite lookup_omap, Hin in H. by destruct c.
  - intros H n. rewrite lookup_omap. destruct (b !! n) as [[x|m]|] eqn:Hn; try done.
    exfalso. apply not_true_iff_false in H. apply H.
    apply existsb_exists. exists (n, Dir m). split; [|done].
    by apply list_elem_of_In, elem_of_map_to_list.
Qed.

Lemma pruned_entry_dir b :
  pruned_entry (Some (Dir b)) =
  if existsb (fun kv => is_dir_node (snd kv)) (map_to_list b)
  then Some (strip_files (Dir b)) else None.
Proof.
  pose proof (strip_files_empty b) as H. unfold pruned_entry.
  destruct (strip_files (Dir b)) as [c|b']; [done|].
  destruct (map_to_list b') as [|kv l].
  - destruct H as [H _]. by rewrite H.
  - destruct (existsb _ _); [done|]. destruct H as [_ H]. by specialize (H eq_refl).
Qed.

Lemma in_take_elem {A} (l : list A) k x : x ∈ take k l -> x ∈ l.
Proof. intros H. exact (elem_of_sublist _ _ _ H (sublist_take _ _)). Qed.

Lemma in_drop_elem {A} (l : list A) k x : x ∈ drop k l -> x ∈ l.
Proof. intros H. exact (elem_of_sublist _ _ _ H (sublist_drop _ _)). Qed.

Lemma has_subdir_entry d n t ev :
  fs_find d t = Done (Dir ev) ->
  has_subdir (d ++ [n]) t =
  match ev !! n with
  | Some (Dir b) => existsb (fun kv => is_dir_node (snd kv)) (map_to_list b)
  | _ => false
  end.
Proof.
  intros Hd. unfold has_subdir. rewrite fs_find_app, Hd, fs_find_entry.
  by destruct (ev !! n) as [[c|b]|].
Qed.

Lemma StronglySorted_filter {A} (R : relation A) (P : A -> Prop)
    `{!forall x, Decision (P x)} l :
  StronglySorted R l -> StronglySorted R (filter P l).
Proof.
  induction 1 as [|x l Hl IH Hx]; [constructor|].
  rewrite filter_cons. destruct (decide (P x)); [|done].
  constructor; [done|]. apply Forall_forall. intros y Hy.
  apply list_elem_of_filter in Hy as [_ Hy].
  rewrite Forall_forall in Hx. by apply Hx.
Qed.

(** What is left of a sorted list without repetition when some of its
    first [k] elements are dropped is such a list again. *)
Lemma kept_sorted (P : path -> Prop) `{!forall x, Decision (P x)} k bundles :
  NoDup bundles -> StronglySorted name_le bundles ->
  NoDup (filter P (take k bundles) ++ drop k bundles) /\
  StronglySorted name_le (filter P (take k bundles) ++ drop k bundles).
Proof.
  intros Hnd Hss. rewrite <- (take_drop k bundles) in Hnd, Hss.
  apply NoDup_app in Hnd as [Hnd1 [Hdisj Hnd2]].
  apply StronglySorted_app in Hss as [Hcross [Hs1 Hs2]].
  split.
  - apply NoDup_app. split; [by apply NoDup_filter|]. split; [|done].
    intros x Hx. apply list_elem_of_filter in Hx as [_ Hx]. by apply Hdisj.
  - apply StronglySorted_app. split; [|split; [by apply StronglySorted_filter | done]].
    intros x1 x2 H1 H2. apply list_elem_of_filter in H1 as [_ H1]. by apply Hcross.
Qed.

Lemma fs_find_event_log_put v t :
  fs_find EVENT_LOG (fs_put EVIDENCE_DIR v t) = fs_find EVENT_LOG t.
Proof.
  unfold EVENT_LOG, EVIDENCE_DIR. rewrite !fs_find_app.
  destruct (fs_find LOG_DIR t) as [[c|L]|e] eqn:HL.
  - rewrite (fs_put_app _ _ _ _ _ HL). cbn [fs_put].
    by rewrite (fs_put_same _ _ _ HL), HL.
  - rewrite (fs_put_app _ _ _ _ _ HL), (fs_find_put _ _ _ _ HL). cbn [fs_put].
    destruct (L !! lit "evidence") as [c|] eqn:Hev.
    + rewrite !fs_find_entry, lookup_insert_ne by lit_neq. done.
    + done.
  - assert (Hput : forall q, fs_put (LOG_DIR ++ q) v t = t).
    { intros q. clear -HL. revert t HL. generalize LOG_DIR.
      induction l as [|n r IH]; intros t Ht; [done|].
      cbn [app fs_put]. destruct t as [c|m]; [done|].
      simpl in Ht. destruct (m !! n) as [c|] eqn:Hn; [|done].
      by rewrite (IH _ Ht), insert_id. }
    by rewrite Hput, HL.
Qed.

(** What [prune_evidence] does when the evidence directory can be listed
    and [keep] is positive. *)
Lemma prune_evidence_outcome keep w bundles :
  list_bundles (fs w) = Done bundles -> (0 < keep)%Z ->
  exists w',
    prune_evidence keep w = Ok tt w' /\
    queries w' = queries w /\
    fs_find EVENT_LOG (fs w') = fs_find EVENT_LOG (fs w) /\
    list_bundles (fs w') =
      Done (filter (fun p => has_subdir p (fs w) = true)
              (take (excess_of keep bundles) bundles)
            ++ drop (excess_of keep bundles) bundles) /\
    (forall n, EVIDENCE_DIR ++ [n] ∉ take (excess_of keep bundles) bundles ->
       fs_find (EVIDENCE_DIR ++ [n]) (fs w') = fs_find (EVIDENCE_DIR ++ [n]) (fs w)) /\
    (forall p b, p ∈ take (excess_of keep bundles) bundles ->
       fs_find p (fs w) = Done b ->
       fs_find p (fs w') =
       if has_subdir p (fs w) then Done (strip_files b) else Fault FileNotFoundError).
Proof.
  intros Hlist Hkeep. set (k := excess_of keep bundles).
  destruct (list_bundles_inv _ _ Hlist) as [ev Hev].
  destruct (list_bundles_spec _ _ Hev) as [bs [Hbs [Hnd [Hss Hin]]]].
  rewrite Hlist in Hbs. injection Hbs as <-.
  pose proof (list_bundles_shape _ _ Hlist) as Hshape.
  set (names := map path_name bundles) in *.
  set (ev' := fold_left (fun e n => prune_step n e) (take k names) ev).
  assert (Hrun : prune_evidence keep w =
                 Ok tt (set_fs (fs_put EVIDENCE_DIR (Dir ev') (fs w)) w)).
  { unfold prune_evidence. destruct (Z.leb_spec keep 0) as [?|_]; [lia|].
    rewrite Hlist. destruct (Z.leb_spec (Z.of_nat (length bundles) - keep) 0) as [Hle|Hgt].
    - unfold ev', k, excess_of.
      replace (Z.to_nat (Z.of_nat (length bundles) - keep)) with 0 by lia.
      rewrite take_0. cbn [fold_left]. by rewrite (fs_put_same _ _ _ Hev), set_fs_same.
    - rewrite Hshape at 2. change (map ?f ?l) with (f <$> l). rewrite <- fmap_take.
      change (?f <$> ?l) with (map f l). fold names.
      rewrite (prune_loop _ _ _ _ Hev). done. }
  assert (Hnames : NoDup names).
  { rewrite Hshape in Hnd. change (map ?f ?l) with (f <$> l) in Hnd.
    by apply NoDup_fmap_1 in Hnd. }
  assert (Htake : forall n, n ∈ take k names <-> EVIDENCE_DIR ++ [n] ∈ take k bundles).
  { intros n. rewrite Hshape. change (map ?f ?l) with (f <$> l). rewrite <- fmap_take.
    rewrite list_elem_of_fmap. split.
    - intros H. by exists n.
    - intros [n' [Heq H]]. apply app_inv_head in Heq. by injection Heq as ->. }
  assert (Hlook : forall n, ev' !! n =
            if bool_decide (EVIDENCE_DIR ++ [n] ∈ take k bundles)
            then pruned_entry (ev !! n) else ev !! n).
  { intros n. unfold ev'. rewrite prune_fold_lookup.
    - by rewrite (bool_decide_ext _ _ (Htake n)).
    - eapply sublist_NoDup; [exact Hnames | apply sublist_take]. }
  assert (Hev' : fs_find EVIDENCE_DIR (fs_put EVIDENCE_DIR (Dir ev') (fs w)) = Done (Dir ev'))
    by apply (fs_find_put _ _ _ _ Hev).
  eexists. split; [exact Hrun|]. cbn [fs set_fs queries].
  split; [done|]. split; [apply fs_find_event_log_put|]. split; [|split].
  - destruct (list_bundles_spec _ _ Hev') as [bs' [-> [Hnd' [Hss' Hin']]]]. f_equal.
    destruct (kept_sorted (fun p => has_subdir p (fs w) = true) k bundles Hnd Hss)
      as [Hnd2 Hss2].
    assert (Hmem : forall p, p ∈ bs' <->
              p ∈ filter (fun p => has_subdir p (fs w) = true) (take k bundles)
                  ++ drop k bundles).
    { intros p. rewrite Hin', elem_of_app, list_elem_of_filter. split.
      - intros [n [b' [-> Hn]]]. rewrite Hlook in Hn. case_bool_decide as Ht.
        + left. split; [|done]. rewrite (has_subdir_entry _ _ _ _ Hev).
          destruct (ev !! n) as [[c|b]|]; try done.
          rewrite pruned_entry_dir in Hn. by destruct (existsb _ _).
        + right. assert (Hb : EVIDENCE_DIR ++ [n] ∈ bundles) by (apply Hin; eauto).
          rewrite <- (take_drop k bundles), elem_of_app in Hb. tauto.
      - intros [[Hsub Hp]|Hp].
        + pose proof Hp as Hp'. apply in_take_elem in Hp'.
          apply Hin in Hp' as [n [b [-> Hn]]]. rewrite (has_subdir_entry _ _ _ _ Hev), Hn in Hsub.
          exists n. rewrite Hlook, bool_decide_eq_true_2, Hn, pruned_entry_dir, Hsub by done.
          destruct (strip_files (Dir b)) as [c|b'] eqn:Hs; [done|]. by exists b'.
        + pose proof Hp as Hp'. apply in_drop_elem in Hp'.
          apply Hin in Hp' as [n [b [-> Hn]]].
          exists n, b. split; [done|]. rewrite Hlook, bool_decide_eq_false_2; [done|].
          intros Ht. rewrite <- (take_drop k bundles) in Hnd.
          apply NoDup_app in Hnd as [_ [Hdisj _]]. by apply (Hdisj _ Ht). }
    apply (StronglySorted_unique_strong name_le); [|done|done|].
    + intros x1 x2 H1 H2 R1 R2. apply Hmem in H2.
      apply Hin' in H1 as [n1 [b1 [-> _]]]. apply Hin' in H2 as [n2 [b2 [-> _]]].
      unfold name_le, str_le in R1, R2. rewrite !path_name_entry in R1, R2.
      by rewrite (str_leb_antisym _ _ R1 R2).
    + by apply NoDup_Permutation.
  - intros n Hn. rewrite !fs_find_app, Hev', Hev, !fs_find_entry, Hlook.
    by rewrite bool_decide_eq_false_2.
  - intros p b Hp Hb. pose proof Hp as Hp'.
    apply in_take_elem in Hp'.
    apply Hin in Hp' as [n [b0 [-> Hn]]].
    rewrite (has_subdir_entry _ _ _ _ Hev), Hn.
    rewrite fs_find_app, Hev, fs_find_entry, Hn in Hb. injection Hb as <-.
    rewrite fs_find_app, Hev', fs_find_entry, Hlook, bool_decide_eq_true_2 by done.
    rewrite Hn, pruned_entry_dir. by destruct (existsb _ _).
Qed.

(* ===================================================================== *)
(** ** Facts about [snapshot] and [main] *)
(* ===================================================================== *)











(* ===================================================================== *)
(** ** The Command Runner and the port probe *)
(* ===================================================================== *)


(** C5. The port probe passes exactly when ["11434"] occurs in the
    listing the command printed, whatever the exit status; a failed
    execution counts as an empty listing.  The command line ends in
    [|| true], whose status is 0 for every status of the pipeline, and an
    empty listing of a command that exited with status 0 gives
    [passed = False] with [ok = True] in the detail. *)
Theorem check_port_verdict (E : env) (w : world) :
  exists v r,
    check_port E w =
      Ok (v, JObj [(lit "ss_grep_11434", CmdResult_dict r)])
         (asked (QRun port_command 10) w) /\
    r = run_result port_command (exec E (length (queries w)) port_command 10) /\
    match exec E (length (queries w)) port_command 10 with
    | Completed code so se =>
        (v = true <-> occurs (lit "11434") (default [] so)) /\
        ok r = (code =? 0)%Z /\
        (default [] so = [] -> v = false)
    | Failed msg => v = false /\ ok r = false
    end /\
    port_command = lit "ss -ltnp | grep -E '(:|\.)11434\b'" ++ lit " || true" /\
    (forall pipeline_status, sh_or pipeline_status sh_true = 0%Z).
Proof.
  eexists _, _. split; [reflexivity|]. split; [reflexivity|]. split.
  - destruct (exec E (length (queries w)) port_command 10) as [code so se|msg];
      cbn [run_result out ok]; [|done].
    assert (Hs : contains (lit "11434") (strip (default [] so)) =
                 contains (lit "11434") (default [] so)).
    { apply contains_strip.
      - exists 49%N, (lit "1434"). done.
      - exists 52%N, (lit "1143"). done. }
    rewrite Hs. split; [apply contains_spec|]. split; [done|].
    by intros ->.
  - split; [done|]. intros st. unfold sh_or, sh_true. by destruct (st =? 0)%Z.
Qed.

(** An idle port: the pipeline finds nothing, the shell list still exits
    with status 0, and the probe fails on the empty listing alone. *)
Lemma check_port_verdict_witness :
  let E := {| now := {| year := 2026; month := 11; day := 4; hour := 9;
                        minute := 57; second := 0; microsecond := 0 |};
              exec := fun _ _ _ => Completed (sh_or 1 sh_true) (Some []) (Some []);
              path_exists := fun _ _ => true |} in
  let w := {| fs := Dir ∅; queries := [] |} in
  exists r,
    check_port E w =
      Ok (false, JObj [(lit "ss_grep_11434", CmdResult_dict r)])
         (asked (QRun port_command 10) w) /\ ok r = true.
Proof.
  intros E w.
  destruct (check_port_verdict E w) as [v [r [Hrun [Hr [Hv _]]]]].
  exists r. simpl in Hv. destruct Hv as [_ [Hok Hempty]].
  rewrite (Hempty eq_refl) in Hrun. split; [exact Hrun | exact Hok].
Defined.

(* ===================================================================== *)
(** ** Bundle names *)
(* ===================================================================== *)

(** C7, on the code.  A run at 09:57:00.000000 and a later run at
    09:57:00.000001: [isoformat] prints no fraction for the first, so the
    bundle of the later run gets the smaller name and [sorted] puts it
    first. *)
Theorem bundle_names_misordered :
  let d0 := {| year := 2026; month := 11; day := 4; hour := 9;
               minute := 57; second := 0; microsecond := 0 |} in
  let d1 := {| year := 2026; month := 11; day := 4; hour := 9;
               minute := 57; second := 0; microsecond := 1 |} in
  valid_datetime d0 /\ valid_datetime d1 /\ earlier d0 d1 = true /\
  evidence_bundle_dir (utc_ts d0) = EVIDENCE_DIR ++ [lit "2026-11-04T09-57-00Z"] /\
  evidence_bundle_dir (utc_ts d1) =
    EVIDENCE_DIR ++ [lit "2026-11-04T09-57-00.000001Z"] /\
  str_lt (path_name (evidence_bundle_dir (utc_ts d1)))
         (path_name (evidence_bundle_dir (utc_ts d0))) /\
  sorted_by_name [evidence_bundle_dir (utc_ts d0); evidence_bundle_dir (utc_ts d1)] =
    [evidence_bundle_dir (utc_ts d1); evidence_bundle_dir (utc_ts d0)].
Proof.
  intros d0 d1. unfold valid_datetime. simpl.
  repeat split; try lia; try (vm_compute; reflexivity).
  vm_compute. discriminate.
Qed.

(* ===================================================================== *)
(** ** The Event Recorder *)
(* ===================================================================== *)

(** C9, as the code has it.  [write_event] creates the log file when it
    is missing and its directory exists; with the directory missing it
    raises [FileNotFoundError] and changes nothing.  The directories are
    created by [ensure_dirs], which [main] calls first: after it,
    [write_event] returns and the log holds the one line, also when
    neither the file nor its directory was there. *)
Theorem write_event_needs_log_dir (ev : json) (w : world) :
  match fs_find LOG_DIR (fs w) with
  | Done (Dir L) =>
      match L !! lit "events.jsonl" with
      | None =>
          exists w', write_event ev w = Ok tt w' /\
            fs_find EVENT_LOG (fs w') = Done (File (json_dumps ev ++ [10%N]))
      | Some (File c) =>
          exists w', write_event ev w = Ok tt w' /\
            fs_find EVENT_LOG (fs w') = Done (File (c ++ json_dumps ev ++ [10%N]))
      | Some (Dir _) => write_event ev w = Raise IsADirectoryError w
      end
  | Done (File _) => write_event ev w = Raise NotADirectoryError w
  | Fault FileNotFoundError =>
      write_event ev w = Raise FileNotFoundError w /\
      exists w', (ensure_dirs ;; write_event ev) w = Ok tt w' /\
        fs_find EVENT_LOG (fs w') = Done (File (json_dumps ev ++ [10%N]))
  | Fault e => write_event ev w = Raise e w
  end.
Proof.
  destruct (fs_find LOG_DIR (fs w)) as [[c|L]|e] eqn:HL.
  - unfold write_event, fs_call, EVENT_LOG.
    rewrite fs_change_app by done. rewrite HL. done.
  - rewrite (write_event_spec _ _ _ HL).
    destruct (L !! lit "events.jsonl") as [[c|b]|]; [|done|];
      (eexists; split; [reflexivity|]; by apply fs_find_event_log).
  - assert (Hraise : write_event ev w = Raise e w).
    { unfold write_event, fs_call, EVENT_LOG.
      rewrite fs_change_app by done. by rewrite HL. }
    destruct e; try exact Hraise. split; [exact Hraise|].
    destruct (ensure_dirs_spec w) as [t' [L [Hens [HL' [_ Hlog]]]]].
    { unfold dir_or_absent, EVIDENCE_DIR. by rewrite fs_find_app, HL. }
    unfold EVENT_LOG in Hlog. rewrite fs_find_app, HL in Hlog.
    rewrite (bind_Ok _ _ _ _ _ Hens).
    rewrite (write_event_spec ev (set_fs t' w) L HL'), Hlog.
    eexists; split; [reflexivity|]. by apply fs_find_event_log.
Qed.

(** C9 as the specification states it fails: in an empty home directory
    [write_event] alone raises [FileNotFoundError] and creates nothing. *)
Lemma write_event_alone_raises :
  let ev := event_json (lit "2026-11-04T09:57:00Z") true
              (status_map true true true true) in
  let w := {| fs := Dir ∅; queries := [] |} in
  fs_find LOG_DIR (fs w) = Fault FileNotFoundError /\
  fs_find EVENT_LOG (fs w) = Fault FileNotFoundError /\
  ~ (exists w', write_event ev w = Ok tt w').
Proof.
  intros ev w. split; [done|]. split; [done|].
  intros [w' H]. vm_compute in H. discriminate H.
Qed.

(** An empty home directory: the record step alone raises, the two steps
    of [main] together leave the log with its first line. *)
Lemma write_event_needs_log_dir_witness :
  let ev := event_json (lit "2026-11-04T09:57:00Z") true
              (status_map true true true true) in
  let w := {| fs := Dir ∅; queries := [] |} in
  write_event ev w = Raise FileNotFoundError w /\
  exists w', (ensure_dirs ;; write_event ev) w = Ok tt w' /\
    fs_find EVENT_LOG (fs w') = Done (File (json_dumps ev ++ [10%N])).
Proof.
  intros ev w. exact (write_event_needs_log_dir ev w).
Defined.







(* ===================================================================== *)
(** ** The Retention Pruner *)
(* ===================================================================== *)



Lemma peek_app p q t :
  peek (p ++ q) t =
  match fs_find p t with Done s => peek q s | Fault _ => Absent end.
Proof. unfold peek. rewrite fs_find_app. by destruct (fs_find p t). Qed.




(** C10. A bundle that [prune_evidence] takes from the front of the
    sorted list and that holds a directory: the call returns; the bundle
    is still a directory afterwards; below it every regular file is gone
    and every directory is where it was; the other bundles taken from the
    front are removed when they hold no directory, and the bundles kept
    are untouched; and more than [keep] bundles are left. *)
Theorem prune_keeps_bundle_with_subdir
    (keep : Z) (w : world) (bundles : list path) (p : path) (b : node)
    (Hlist : list_bundles (fs w) = Done bundles)
    (Hkeep : (0 < keep)%Z)
    (Hp : p ∈ take (excess_of keep bundles) bundles)
    (Hb : fs_find p (fs w) = Done b)
    (Hsub : has_subdir p (fs w) = true) :
  exists w',
    prune_evidence keep w = Ok tt w' /\
    fs_find p (fs w') = Done (strip_files b) /\
    is_dir p (fs w') = true /\
    (forall q, q <> [] ->
       peek (p ++ q) (fs w') =
       match peek (p ++ q) (fs w) with IsFile _ => Absent | k => k end) /\
    (forall p', p' ∈ take (excess_of keep bundles) bundles ->
       has_subdir p' (fs w) = false ->
       fs_find p' (fs w') = Fault FileNotFoundError) /\
    (forall p', p' ∈ drop (excess_of keep bundles) bundles ->
       fs_find p' (fs w') = fs_find p' (fs w)) /\
    exists bundles',
      list_bundles (fs w') = Done bundles' /\ p ∈ bundles' /\
      (keep < Z.of_nat (length bundles'))%Z.
Proof.
  destruct (prune_evidence_outcome keep w bundles Hlist Hkeep)
    as [w' [Hrun [_ [_ [Hafter [Hrest Htaken]]]]]].
  destruct (list_bundles_inv _ _ Hlist) as [ev Hev].
  destruct (list_bundles_spec _ _ Hev) as [bs [Hbs [Hnd [Hss Hin]]]].
  rewrite Hlist in Hbs. injection Hbs as <-.
  assert (Hpw : fs_find p (fs w') = Done (strip_files b)).
  { by rewrite (Htaken p b Hp Hb), Hsub. }
  assert (Hdir : exists m, b = Dir m).
  { unfold has_subdir in Hsub. rewrite Hb in Hsub. destruct b as [c|m]; [done|]. by exists m. }
  destruct Hdir as [m ->].
  exists w'. split; [exact Hrun|]. split; [exact Hpw|]. split; [|split; [|split; [|split]]].
  - unfold is_dir. by rewrite Hpw.
  - intros q Hq. rewrite !peek_app, Hpw, Hb, peek_strip_files. by destruct q.
  - intros p' Hp' Hflat. pose proof Hp' as Hp''.
    apply in_take_elem in Hp''.
    apply Hin in Hp'' as [n [b' [-> Hn]]].
    rewrite (Htaken _ (Dir b') Hp'), Hflat; [done|].
    by rewrite fs_find_app, Hev, fs_find_entry, Hn.
  - intros p' Hp'. pose proof Hp' as Hp''.
    apply in_drop_elem in Hp''.
    apply Hin in Hp'' as [n [b' [-> _]]]. apply Hrest. intros Ht.
    rewrite <- (take_drop (excess_of keep bundles) bundles) in Hnd.
    apply NoDup_app in Hnd as [_ [Hdisj _]]. by apply (Hdisj _ Ht).
  - eexists. split; [exact Hafter|].
    assert (Hpf : p ∈ filter (fun p => has_subdir p (fs w) = true)
                         (take (excess_of keep bundles) bundles)).
    { by apply list_elem_of_filter. }
    split; [apply elem_of_app; by left|].
    rewrite length_app, length_drop.
    assert (Hlen : 1 <= length (filter (fun p => has_subdir p (fs w) = true)
                                  (take (excess_of keep bundles) bundles))).
    { destruct (filter _ _) as [|x l]; [by apply not_elem_of_nil in Hpf | simpl; lia]. }
    assert (Hk : 0 < excess_of keep bundles).
    { destruct (excess_of keep bundles); [|lia]. by apply not_elem_of_nil in Hp. }
    unfold excess_of in *. lia.
Qed.

(** Two bundles, [keep = 1], the first in name order holds a directory
    and a file: the file goes, the directory and the bundle stay, and
    two bundles are left. *)
Lemma prune_keeps_bundle_with_subdir_witness :
  let a := Dir (<[lit "details.json" := File (lit "{}")]> {[lit "core" := Dir ∅]}) in
  let w := {| fs := Dir {[lit "system-brain-agent" := Dir {[lit "logs" :=
                Dir {[lit "evidence" :=
                  Dir (<[lit "2026-11-04T09-57-00.000001Z" := a]>
                        {[lit "2026-11-04T09-58-00.000001Z" := Dir ∅]})]}]}]};
              queries := [] |} in
  let b1 := EVIDENCE_DIR ++ [lit "2026-11-04T09-57-00.000001Z"] in
  exists w',
    prune_evidence 1 w = Ok tt w' /\
    fs_find b1 (fs w') = Done (Dir {[lit "core" := Dir ∅]}) /\
    peek (b1 ++ [lit "details.json"]) (fs w') = Absent /\
    exists bundles', list_bundles (fs w') = Done bundles' /\
                     (1 < Z.of_nat (length bundles'))%Z.
Proof.
  intros a w b1.
  destruct (prune_keeps_bundle_with_subdir 1 w
              [b1; EVIDENCE_DIR ++ [lit "2026-11-04T09-58-00.000001Z"]] b1 a)
    as [w' [Hrun [Hb1 [_ [Hfiles [_ [_ [bundles' [Hl [_ Hn]]]]]]]]]].
  - vm_compute. reflexivity.
  - lia.
  - change (take _ _) with [b1]. by apply list_elem_of_singleton.
  - vm_compute. reflexivity.
  - vm_compute. reflexivity.
  - exists w'. split; [exact Hrun|]. split; [|split].
    + rewrite Hb1. vm_compute. reflexivity.
    + rewrite Hfiles by done. vm_compute. reflexivity.
    + exists bundles'. split; [exact Hl | exact Hn].
Defined.

(* ===================================================================== *)
(** ** The Orchestrator *)
(* ===================================================================== *)






(** Every combination of the four verdicts is the outcome of some
    behaviour of the commands. *)
Lemma every_verdict_combination (C : config) (v1 v2 v3 v4 : bool) :
  exists E d1 d2 d3 d4 w1 w2 w3 w4,
    let w := {| fs := Dir ∅; queries := [] |} in
    check_ollama_active E w = Ok (v1, d1) w1 /\
    check_port E w1 = Ok (v2, d2) w2 /\
    check_ollama_list C E w2 = Ok (v3, d3) w3 /\
    check_compile C E w3 = Ok (v4, d4) w4.
Proof.
  exists {| now := {| year := 2026; month := 11; day := 4; hour := 9;
                      minute := 57; second := 0; microsecond := 1 |};
            exec := fun i _ _ =>
              match i with
              | 0 => if v1 then Completed 0 (Some (lit "active")) None
                     else Failed (lit "timed out")
              | 1 => if v2 then Completed 0 (Some (lit "LISTEN 127.0.0.1:11434")) None
                     else Completed 0 None None
              | 2 => if v3 then Completed 0 (Some (lit "NAME")) None
                     else Completed 1 None None
              | _ => if v4 then Completed 0 None None else Completed 1 None None
              end;
            path_exists := fun _ _ => true |}.
  destruct v1, v2, v3, v4;
    (eexists _, _, _, _, _, _, _, _; cbv zeta;
     split; [reflexivity|split; [reflexivity|split; reflexivity]]).
Qed.




(* ===================================================================== *)
(** ** More on the probes *)
(* ===================================================================== *)

Lemma lstrip_spaces pre r :
  forallb isspace pre = true -> lstrip (pre ++ r) = lstrip r.
Proof.
  induction pre as [|c pre IH]; [done|]. simpl.
  intros H. apply andb_true_iff in H as [-> H]. by apply IH.
Qed.

Lemma lstrip_fixed t :
  (forall c r, t = c :: r -> isspace c = false) -> lstrip t = t.
Proof. destruct t as [|c r]; [done|]. intros H. simpl. by rewrite (H c r). Qed.

Lemma lstrip_all_spaces s : forallb isspace s = true -> lstrip s = [].
Proof. intros H. rewrite <- (app_nil_r s). by rewrite lstrip_spaces. Qed.

(** [strip] finds the one way to cut white space off both ends. *)
Lemma strip_unique s t : trim_of s t -> strip s = t.
Proof.
  intros (pre & post & -> & Hpre & Hpost & [Hhead Hlast]).
  unfold strip, rstrip. rewrite lstrip_spaces by done.
  destruct t as [|c r].
  - cbn [app]. rewrite (lstrip_all_spaces post) by done. reflexivity.
  - rewrite (lstrip_fixed ((c :: r) ++ post)).
    2:{ intros c' r' Hc. simpl in Hc. injection Hc as <- _. by apply (Hhead c r). }
    rewrite rev_app_distr, (lstrip_spaces (rev post)) by (by rewrite forallb_rev).
    rewrite lstrip_fixed; [apply rev_involutive|].
    intros c' r' Hrev. apply (Hlast c' (rev r')).
    rewrite <- (rev_involutive (c :: r)), Hrev. done.
Qed.

Lemma strip_empty_iff s : strip s = [] <-> forallb isspace s = true.
Proof.
  split.
  - intros H. destruct (strip_trim_of s) as (pre & post & Hs & Hpre & Hpost & _).
    rewrite H in Hs. rewrite Hs at 1. cbn [app]. rewrite forallb_app. by rewrite Hpre, Hpost.
  - intros H. apply strip_unique. exists s, []. rewrite app_nil_r.
    repeat split; try done; intros c r Hc; by destruct r.
Qed.

(** X1. The daemon probe passes exactly when the command completed with
    exit status 0 and printed the word [active] with nothing but white
    space around it. *)
Theorem check_ollama_active_verdict (E : env) (w : world) :
  exists v d,
    check_ollama_active E w =
      Ok (v, d) (asked (QRun (lit "systemctl is-active ollama.service") 10) w) /\
    (v = true <->
     exists so se pre post,
       exec E (length (queries w)) (lit "systemctl is-active ollama.service") 10
         = Completed 0 so se /\
       default [] so = pre ++ lit "active" ++ post /\
       forallb isspace pre = true /\ forallb isspace post = true).
Proof.
  eexists _, _. split; [reflexivity|]. cbn [fst].
  destruct (exec E (length (queries w)) _ 10) as [code so se|msg]; cbn [run_result ok out].
  - rewrite andb_true_iff, Z.eqb_eq, bool_decide_eq_true. split.
    + intros [-> Hs]. destruct (strip_trim_of (default [] so)) as (pre & post & H1 & H2 & H3 & _).
      rewrite Hs in H1. by exists so, se, pre, post.
    + intros (so' & se' & pre & post & [= -> <- _] & Hs & Hpre & Hpost).
      split; [done|]. apply strip_unique. exists pre, post.
      repeat split; try done.
      * intros c r Hc. vm_compute in Hc. by injection Hc as <- _.
      * intros c r Hc. apply (f_equal (@rev N)) in Hc. rewrite rev_app_distr in Hc.
        vm_compute in Hc. by injection Hc as <- _.
  - split; [done|]. by intros (so & se & pre & post & H & _).
Qed.

(** X2. The list probe passes exactly when the command completed with
    exit status 0 and printed at least one code point that is no white
    space. *)
Theorem check_ollama_list_verdict (C : config) (E : env) (w : world) :
  exists v d,
    check_ollama_list C E w =
      Ok (v, d) (asked (QRun (OLLAMA_BIN C ++ lit " list") 20) w) /\
    (v = true <->
     exists so se c,
       exec E (length (queries w)) (OLLAMA_BIN C ++ lit " list") 20
         = Completed 0 so se /\
       In c (default [] so) /\ isspace c = false).
Proof.
  eexists _, _. split; [reflexivity|]. cbn [fst].
  destruct (exec E (length (queries w)) _ 20) as [code so se|msg]; cbn [run_result ok out].
  - rewrite andb_true_iff, Z.eqb_eq, Nat.ltb_lt. split.
    + intros [-> Hlen].
      destruct (forallb isspace (default [] so)) eqn:Hall.
      * apply strip_empty_iff in Hall. rewrite Hall in Hlen. simpl in Hlen. lia.
      * apply not_true_iff_false in Hall. rewrite forallb_forall in Hall.
        destruct (existsb (fun c => negb (isspace c)) (default [] so)) eqn:Hex.
        -- apply existsb_exists in Hex as [c [Hin Hc]]. exists so, se, c.
           split; [done|]. split; [done|]. by apply negb_true_iff.
        -- exfalso. apply Hall. intros c Hin.
           apply not_true_iff_false in Hex. destruct (isspace c) eqn:Hc; [done|].
           exfalso. apply Hex. apply existsb_exists. exists c. by rewrite Hc.
    + intros (so' & se' & c & [= -> <- _] & Hin & Hc). split; [done|].
      destruct (strip (default [] so)) as [|x l] eqn:Hs; [|simpl; lia].
      apply strip_empty_iff in Hs. rewrite forallb_forall in Hs.
      rewrite (Hs c Hin) in Hc. done.
  - split; [done|]. by intros (so & se & c & H & _).
Qed.


(* ===================================================================== *)
(** ** Timestamps and bundle names *)
(* ===================================================================== *)

Lemma fixed_digits_length w : forall n, length (fixed_digits w n) = w.
Proof.
  induction w as [|w IH]; intros n; [done|].
  cbn [fixed_digits]. rewrite length_app, IH. simpl. lia.
Qed.

Lemma fixed_digits_digits w : forall n,
  Forall (fun c => is_digit c = true) (fixed_digits w n).
Proof.
  induction w as [|w IH]; intros n; [constructor|].
  cbn [fixed_digits]. apply Forall_app. split; [apply IH|].
  constructor; [|constructor]. apply is_digit_digit. apply N.mod_lt. lia.
Qed.

Lemma fixed_digits_zero w : fixed_digits w 0 = repeat (digit 0) w.
Proof.
  induction w as [|w IH]; [done|].
  cbn [fixed_digits]. change (0 / 10)%N with 0%N. change (0 mod 10)%N with 0%N.
  rewrite IH. symmetry. apply repeat_cons.
Qed.

Lemma pow10_step w n : (n < 10 ^ N.of_nat (S w))%N -> (n / 10 < 10 ^ N.of_nat w)%N.
Proof.
  intros H. apply N.Div0.div_lt_upper_bound.
  rewrite Nat2N.inj_succ, N.pow_succ_r' in H. lia.
Qed.

Lemma decimal_fuel_fixed w : forall f n,
  (n < 10 ^ N.of_nat (S w))%N ->
  (n < 10 ^ N.of_nat (S f))%N ->
  repeat (digit 0) (S w - length (decimal_fuel (S f) n)) ++ decimal_fuel (S f) n =
  fixed_digits (S w) n.
Proof.
  induction w as [|w IH]; intros f n Hw Hf.
  - change (10 ^ N.of_nat 1)%N with 10%N in Hw.
    cbn [decimal_fuel fixed_digits]. destruct (N.ltb_spec n 10); [|lia].
    cbn [length repeat app]. by rewrite N.mod_small.
  - cbn [decimal_fuel]. destruct (N.ltb_spec n 10) as [Hlt|Hge].
    + cbn [length]. replace (S (S w) - 1) with (S w) by lia.
      cbn [fixed_digits]. rewrite (N.div_small n 10), (N.mod_small n 10) by done.
      change (0 / 10)%N with 0%N. change (0 mod 10)%N with 0%N.
      rewrite fixed_digits_zero.
      change (repeat (digit 0) w ++ [digit 0]) with (repeat (digit 0) w ++ repeat (digit 0) 1).
      rewrite <- repeat_app. by replace (w + 1) with (S w) by lia.
    + destruct f as [|f].
      { change (10 ^ N.of_nat 1)%N with 10%N in Hf. lia. }
      rewrite length_app. cbn [length].
      replace (S (S w) - (length (decimal_fuel (S f) (n / 10)) + 1))
        with (S w - length (decimal_fuel (S f) (n / 10))) by lia.
      rewrite app_assoc, IH; [done| by apply pow10_step | by apply pow10_step].
Qed.

Lemma zero_pad_fixed w n :
  (n < 10 ^ N.of_nat (S w))%N -> zero_pad (S w) n = fixed_digits (S w) n.
Proof.
  intros H. unfold zero_pad, decimal. cbv zeta.
  apply decimal_fuel_fixed; [done|apply decimal_bound].
Qed.

Lemma fixed_digits_inj w : forall n m,
  (n < 10 ^ N.of_nat w)%N -> (m < 10 ^ N.of_nat w)%N ->
  fixed_digits w n = fixed_digits w m -> n = m.
Proof.
  induction w as [|w IH]; intros n m Hn Hm Heq.
  - change (10 ^ N.of_nat 0)%N with 1%N in *. lia.
  - cbn [fixed_digits] in Heq. apply app_inj_tail in Heq as [Hq Hr].
    apply IH in Hq; [|by apply pow10_step..].
    unfold digit in Hr.
    pose proof (N.div_mod n 10 ltac:(lia)). pose proof (N.div_mod m 10 ltac:(lia)).
    remember (n / 10)%N as qn. remember (m / 10)%N as qm.
    remember (n mod 10)%N as rn. remember (m mod 10)%N as rm.
    lia.
Qed.

Lemma str_leb_app a : forall b x y,
  length a = length b ->
  str_leb (a ++ x) (b ++ y) = if bool_decide (a = b) then str_leb x y else str_leb a b.
Proof.
  induction a as [|c a IH]; intros [|e b] x y Hlen; try done.
  cbn [app str_leb]. injection Hlen as Hlen.
  destruct (N.ltb_spec c e) as [Hlt|Hge].
  - rewrite bool_decide_eq_false_2; [done|]. intros [= -> _]. lia.
  - destruct (N.eqb_spec c e) as [->|Hne].
    + rewrite (IH b x y Hlen). destruct (decide (a = b)) as [->|Hab].
      * by rewrite !bool_decide_eq_true_2.
      * rewrite !bool_decide_eq_false_2; [done| |done]. by intros [= ->].
    + rewrite bool_decide_eq_false_2; [done|]. by intros [= -> _].
Qed.

Lemma str_lt_app_lt a b x y :
  length a = length b -> str_lt a b -> str_lt (a ++ x) (b ++ y).
Proof.
  intros Hlen [Hle Hne]. split.
  - unfold str_le. rewrite str_leb_app by done. by rewrite bool_decide_eq_false_2.
  - intros Heq. apply app_inj_1 in Heq as [Heq _]; done.
Qed.

Lemma str_lt_app_eq a x y : str_lt x y -> str_lt (a ++ x) (a ++ y).
Proof.
  intros [Hle Hne]. split.
  - unfold str_le. rewrite str_leb_app by done. by rewrite bool_decide_eq_true_2.
  - intros Heq. by apply app_inv_head in Heq.
Qed.

Lemma fixed_digits_lt w : forall n m,
  (n < m)%N -> (m < 10 ^ N.of_nat w)%N ->
  str_lt (fixed_digits w n) (fixed_digits w m).
Proof.
  induction w as [|w IH]; intros n m Hnm Hm.
  - change (10 ^ N.of_nat 0)%N with 1%N in *. lia.
  - cbn [fixed_digits].
    pose proof (N.div_mod n 10 ltac:(lia)) as Hdn.
    pose proof (N.div_mod m 10 ltac:(lia)) as Hdm.
    pose proof (N.mod_lt n 10 ltac:(lia)) as Hrn.
    pose proof (N.mod_lt m 10 ltac:(lia)) as Hrm.
    pose proof (pow10_step w m Hm) as Hqm.
    remember (n / 10)%N as qn. remember (m / 10)%N as qm.
    remember (n mod 10)%N as rn. remember (m mod 10)%N as rm.
    destruct (N.lt_ge_cases qn qm) as [Hq|Hq].
    + apply str_lt_app_lt; [by rewrite !fixed_digits_length|].
      by apply IH.
    + assert (qn = qm) as -> by lia.
      apply str_lt_app_eq. split.
      * unfold str_le, digit. cbn [str_leb].
        destruct (N.ltb_spec (48 + rn) (48 + rm)); [done|lia].
      * unfold digit. intros [= H]. lia.
Qed.

(** [s.replace(old, new)] where [old] is one code point. *)
Lemma str_replace_char a b s :
  str_replace [a] [b] s = map (fun c => if (c =? a)%N then b else c) s.
Proof.
  unfold str_replace. induction s as [|c s IH]; [done|].
  cbn [replace_scan startswith length Nat.sub map].
  rewrite (N.eqb_sym a c). destruct (c =? a)%N; cbn [andb].
  - destruct s; cbn [app]; by rewrite IH.
  - destruct s; by rewrite IH.
Qed.

Lemma replace_scan_skip old new : forall s k,
  length s <= k -> replace_scan old new k s = [].
Proof.
  induction s as [|c s IH]; intros k Hk; [done|].
  destruct k as [|k]; [simpl in Hk; lia|]. cbn [replace_scan].
  apply IH. simpl in Hk. lia.
Qed.

(** [s.replace(old, new)] when [old] ends [s] and its first code point
    occurs nowhere before. *)
Lemma str_replace_suffix c0 old new s :
  Forall (fun c => c <> c0) s ->
  str_replace (c0 :: old) new (s ++ c0 :: old) = s ++ new.
Proof.
  unfold str_replace. induction 1 as [|c s Hc _ IH].
  - cbn [app replace_scan].
    assert (startswith (c0 :: old) (c0 :: old) = true) as ->.
    { apply startswith_spec. exists []. by rewrite app_nil_r. }
    rewrite replace_scan_skip; [by rewrite app_nil_r|]. simpl. lia.
  - cbn [app replace_scan startswith].
    destruct (N.eqb_spec c0 c) as [->|_]; [done|]. cbn [andb]. by rewrite IH.
Qed.

Lemma valid_datetime_bounds d :
  valid_datetime d ->
  (year d < 10 ^ N.of_nat 4 /\ month d < 10 ^ N.of_nat 2 /\ day d < 10 ^ N.of_nat 2 /\
   hour d < 10 ^ N.of_nat 2 /\ minute d < 10 ^ N.of_nat 2 /\
   second d < 10 ^ N.of_nat 2 /\ microsecond d < 10 ^ N.of_nat 6)%N.
Proof.
  unfold valid_datetime.
  change (10 ^ N.of_nat 4)%N with 10000%N. change (10 ^ N.of_nat 2)%N with 100%N.
  change (10 ^ N.of_nat 6)%N with 1000000%N. lia.
Qed.

Lemma digits_not (x : N) l :
  is_digit x = false -> Forall (fun c => is_digit c = true) l -> Forall (fun c => c <> x) l.
Proof.
  intros Hx Hl. eapply Forall_impl; [exact Hl|]. intros c Hc ->. by rewrite Hx in Hc.
Qed.

Lemma isoformat_stamp d :
  valid_datetime d ->
  exists body,
    isoformat d = body ++ lit "+00:00" /\
    stamp (lit ":") d = body ++ lit "Z" /\
    Forall (fun c => c <> 43%N) body /\
    stamp (lit "-") d = map (fun c => if (c =? 58)%N then 45%N else c) (body ++ lit "Z").
Proof.
  intros Hv. apply valid_datetime_bounds in Hv as (Hy & Hmo & Hd & Hh & Hmi & Hs & Hus).
  unfold isoformat, stamp. rewrite !zero_pad_fixed by done.
  eexists (fixed_digits 4 (year d) ++ lit "-" ++ fixed_digits 2 (month d) ++ lit "-" ++
           fixed_digits 2 (day d) ++ lit "T" ++ fixed_digits 2 (hour d) ++ lit ":" ++
           fixed_digits 2 (minute d) ++ lit ":" ++ fixed_digits 2 (second d) ++
           (if (microsecond d =? 0)%N then []
            else lit "." ++ fixed_digits 6 (microsecond d))).
  assert (Hmap : forall w n, map (fun c => if (c =? 58)%N then 45%N else c)
                                 (fixed_digits w n) = fixed_digits w n).
  { intros w n. rewrite <- (map_id (fixed_digits w n)) at 2.
    apply map_ext_Forall. eapply Forall_impl; [apply fixed_digits_digits|].
    intros c Hc. cbn beta. destruct (N.eqb_spec c 58) as [->|]; [done|done]. }
  split; [by rewrite <- !app_assoc|]. split; [by rewrite <- !app_assoc|]. split.
  - repeat match goal with
           | |- Forall _ (fixed_digits _ _ ++ _) =>
               apply Forall_app_2; [apply digits_not; [done|apply fixed_digits_digits]|]
           | |- Forall _ (lit _ ++ _) =>
               apply Forall_app_2; [repeat constructor; done|]
           end.
    destruct (microsecond d =? 0)%N; [constructor|].
    apply Forall_app_2; [repeat constructor; done|].
    apply digits_not; [done|apply fixed_digits_digits].
  - rewrite !map_app, !Hmap.
    destruct (microsecond d =? 0)%N; [by rewrite <- !app_assoc|].
    rewrite !map_app, !Hmap. by rewrite <- !app_assoc.
Qed.

Lemma utc_ts_stamp d :
  valid_datetime d ->
  utc_ts d = stamp (lit ":") d /\
  evidence_bundle_dir (utc_ts d) = EVIDENCE_DIR ++ [stamp (lit "-") d].
Proof.
  intros Hv.
  destruct (isoformat_stamp d Hv) as (body & Hiso & Hcolon & Hplus & Hdash).
  assert (Hts : utc_ts d = stamp (lit ":") d).
  { unfold utc_ts. rewrite Hiso, Hcolon.
    change (lit "+00:00") with (43%N :: lit "00:00").
    by rewrite str_replace_suffix. }
  split; [exact Hts|].
  unfold evidence_bundle_dir. rewrite Hts, Hcolon.
  change (lit ":") with [58%N]. change (lit "-") with [45%N] at 1.
  by rewrite str_replace_char, <- Hdash.
Qed.

(** X4. For every [datetime] with its fields in range, [utc_ts] prints
    [YYYY-MM-DDTHH:MM:SS], six digits of fraction after a dot unless the
    microseconds are zero, and [Z]: 20 code points, or 27 with the
    fraction; the bundle of the run is named likewise with hyphens
    between hours, minutes and seconds. *)
Theorem utc_ts_format (d : datetime) (Hv : valid_datetime d) :
  utc_ts d = stamp (lit ":") d /\
  evidence_bundle_dir (utc_ts d) = EVIDENCE_DIR ++ [stamp (lit "-") d] /\
  length (utc_ts d) = (if (microsecond d =? 0)%N then 20 else 27).
Proof.
  destruct (utc_ts_stamp d Hv) as [Hts Hb].
  split; [exact Hts|]. split; [exact Hb|].
  rewrite Hts. unfold stamp.
  destruct (microsecond d =? 0)%N;
    rewrite ?length_app, ?fixed_digits_length; reflexivity.
Qed.

Lemma utc_ts_format_witness :
  let d := {| year := 2026; month := 11; day := 4; hour := 9;
              minute := 57; second := 3; microsecond := 120 |} in
  valid_datetime d /\
  utc_ts d = stamp (lit ":") d /\
  evidence_bundle_dir (utc_ts d) = EVIDENCE_DIR ++ [stamp (lit "-") d] /\
  length (utc_ts d) = 27.
Proof.
  intros d.
  assert (Hv : valid_datetime d) by (unfold valid_datetime; simpl; lia).
  split; [exact Hv|]. exact (utc_ts_format d Hv).
Defined.


Lemma stamp_inj sep d1 d2 :
  valid_datetime d1 -> valid_datetime d2 ->
  stamp sep d1 = stamp sep d2 -> d1 = d2.
Proof.
  intros Hv1 Hv2.
  apply valid_datetime_bounds in Hv1 as (Hy1 & Hmo1 & Hd1 & Hh1 & Hmi1 & Hs1 & Hus1).
  apply valid_datetime_bounds in Hv2 as (Hy2 & Hmo2 & Hd2 & Hh2 & Hmi2 & Hs2 & Hus2).
  unfold stamp. intros H.
  apply app_inj_1 in H as [Ey H]; [|by rewrite !fixed_digits_length].
  apply app_inv_head in H.
  apply app_inj_1 in H as [Emo H]; [|by rewrite !fixed_digits_length].
  apply app_inv_head in H.
  apply app_inj_1 in H as [Ed H]; [|by rewrite !fixed_digits_length].
  apply app_inv_head in H.
  apply app_inj_1 in H as [Eh H]; [|by rewrite !fixed_digits_length].
  apply app_inv_head in H.
  apply app_inj_1 in H as [Emi H]; [|by rewrite !fixed_digits_length].
  apply app_inv_head in H.
  apply app_inj_1 in H as [Es H]; [|by rewrite !fixed_digits_length].
  apply fixed_digits_inj in Ey, Emo, Ed, Eh, Emi, Es; try done.
  assert (Eus : microsecond d1 = microsecond d2).
  { destruct (N.eqb_spec (microsecond d1) 0) as [E1|N1],
             (N.eqb_spec (microsecond d2) 0) as [E2|N2].
    - congruence.
    - exfalso. cbn [app] in H. apply (f_equal (fun l => nth 0 l 0%N)) in H.
      vm_compute in H. discriminate.
    - exfalso. cbn [app] in H. apply (f_equal (fun l => nth 0 l 0%N)) in H.
      vm_compute in H. discriminate.
    - rewrite <- !app_assoc in H. apply app_inv_head in H.
      apply app_inj_1 in H as [Eus _]; [|by rewrite !fixed_digits_length].
      by apply fixed_digits_inj in Eus. }
  destruct d1, d2. simpl in *. by subst.
Qed.

(** X6. Two instants with their fields in range that differ in any field
    get different timestamps and different bundles. *)
Theorem bundle_names_distinct (d1 d2 : datetime)
    (Hv1 : valid_datetime d1) (Hv2 : valid_datetime d2) (Hne : d1 <> d2) :
  utc_ts d1 <> utc_ts d2 /\
  evidence_bundle_dir (utc_ts d1) <> evidence_bundle_dir (utc_ts d2).
Proof.
  destruct (utc_ts_stamp d1 Hv1) as (Ht1 & Hb1).
  destruct (utc_ts_stamp d2 Hv2) as (Ht2 & Hb2).
  split.
  - rewrite Ht1, Ht2. intros H. by apply stamp_inj in H.
  - rewrite Hb1, Hb2. intros H. apply app_inv_head in H.
    assert (Hs : stamp (lit "-") d1 = stamp (lit "-") d2) by congruence.
    by apply stamp_inj in Hs.
Qed.

Ltac stamp_field H :=
  match type of H with
  | (if (?a <? ?b)%N then true else _) = true =>
      let Hlt := fresh "Hlt" in
      let Heq := fresh "Heq" in
      destruct (N.ltb_spec a b) as [Hlt|_];
      [ clear H; apply str_lt_app_lt;
        [by rewrite !fixed_digits_length | by apply fixed_digits_lt]
      | destruct (N.eqb_spec a b) as [Heq|_];
        [rewrite Heq; apply str_lt_app_eq | discriminate H] ]
  end.

Lemma stamp_lt sep d1 d2 :
  valid_datetime d1 -> valid_datetime d2 -> same_precision d1 d2 ->
  earlier d1 d2 = true -> str_lt (stamp sep d1) (stamp sep d2).
Proof.
  intros Hv1 Hv2 Hprec H.
  apply valid_datetime_bounds in Hv1 as (Hy1 & Hmo1 & Hd1 & Hh1 & Hmi1 & Hs1 & Hus1).
  apply valid_datetime_bounds in Hv2 as (Hy2 & Hmo2 & Hd2 & Hh2 & Hmi2 & Hs2 & Hus2).
  unfold earlier, dt_key in H. cbn [key_ltb] in H. unfold stamp.
  stamp_field H. apply str_lt_app_eq.
  stamp_field H. apply str_lt_app_eq.
  stamp_field H. apply str_lt_app_eq.
  stamp_field H. apply str_lt_app_eq.
  stamp_field H. apply str_lt_app_eq.
  stamp_field H.
  destruct (N.ltb_spec (microsecond d1) (microsecond d2)) as [Hlt|_].
  2:{ by destruct (microsecond d1 =? microsecond d2)%N. }
  unfold same_precision in Hprec.
  destruct (N.eqb_spec (microsecond d1) 0) as [E1|_]; [lia|].
  destruct (N.eqb_spec (microsecond d2) 0) as [E2|_]; [lia|].
  rewrite <- !app_assoc. apply str_lt_app_eq.
  apply str_lt_app_lt; [by rewrite !fixed_digits_length | by apply fixed_digits_lt].
Qed.

Lemma key_ltb_trichotomy a : forall b,
  length a = length b -> key_ltb a b = true \/ a = b \/ key_ltb b a = true.
Proof.
  induction a as [|x a IH]; intros [|y b] Hlen; try done; [by right; left|].
  injection Hlen as Hlen. cbn [key_ltb].
  destruct (N.lt_trichotomy x y) as [Hlt|[->|Hgt]].
  - left. by destruct (N.ltb_spec x y); [|lia].
  - rewrite N.ltb_irrefl, N.eqb_refl.
    destruct (IH b Hlen) as [H|[->|H]]; [by left|by right; left|by right; right].
  - right; right. by destruct (N.ltb_spec y x); [|lia].
Qed.

Lemma earlier_trichotomy d1 d2 :
  earlier d1 d2 = true \/ d1 = d2 \/ earlier d2 d1 = true.
Proof.
  destruct (key_ltb_trichotomy (dt_key d1) (dt_key d2) eq_refl) as [H|[H|H]];
    [by left| |by right; right].
  right; left. destruct d1, d2. unfold dt_key in H. simpl in H. congruence.
Qed.

(** X7. For two instants with their fields in range that are printed
    with the same precision (both with a fraction, or both without), the
    order of the names of their bundles is the order in time: the first
    is earlier exactly when its name sorts strictly before the other. *)
Theorem bundle_names_chronological (d1 d2 : datetime)
    (Hv1 : valid_datetime d1) (Hv2 : valid_datetime d2)
    (Hprec : same_precision d1 d2) :
  earlier d1 d2 = true <->
  str_lt (path_name (evidence_bundle_dir (utc_ts d1)))
         (path_name (evidence_bundle_dir (utc_ts d2))).
Proof.
  destruct (utc_ts_stamp d1 Hv1) as (_ & ->).
  destruct (utc_ts_stamp d2 Hv2) as (_ & ->).
  rewrite !path_name_entry. split; [by apply stamp_lt|].
  intros [Hle Hne].
  destruct (earlier_trichotomy d1 d2) as [H|[->|H]]; [done|done|].
  apply (stamp_lt (lit "-")) in H as [Hle' _]; [|done|done|].
  - exfalso. apply Hne. by apply str_leb_antisym.
  - unfold same_precision in *. tauto.
Qed.

Lemma bundle_names_chronological_witness :
  let d1 := {| year := 2026; month := 11; day := 4; hour := 9;
               minute := 57; second := 59; microsecond := 999999 |} in
  let d2 := {| year := 2026; month := 11; day := 4; hour := 10;
               minute := 0; second := 0; microsecond := 1 |} in
  valid_datetime d1 /\ valid_datetime d2 /\ same_precision d1 d2 /\
  str_lt (path_name (evidence_bundle_dir (utc_ts d1)))
         (path_name (evidence_bundle_dir (utc_ts d2))).
Proof.
  intros d1 d2.
  assert (Hv1 : valid_datetime d1) by (unfold valid_datetime; simpl; lia).
  assert (Hv2 : valid_datetime d2) by (unfold valid_datetime; simpl; lia).
  assert (Hp : same_precision d1 d2) by (unfold same_precision; simpl; lia).
  split; [exact Hv1|]. split; [exact Hv2|]. split; [exact Hp|].
  apply (proj1 (bundle_names_chronological d1 d2 Hv1 Hv2 Hp)).
  vm_compute. reflexivity.
Defined.

Lemma bundle_names_distinct_witness :
  let d1 := {| year := 2026; month := 11; day := 4; hour := 9;
               minute := 57; second := 0; microsecond := 0 |} in
  let d2 := {| year := 2026; month := 11; day := 4; hour := 9;
               minute := 57; second := 0; microsecond := 1 |} in
  valid_datetime d1 /\ valid_datetime d2 /\ d1 <> d2 /\
  utc_ts d1 <> utc_ts d2 /\
  evidence_bundle_dir (utc_ts d1) <> evidence_bundle_dir (utc_ts d2).
Proof.
  intros d1 d2.
  assert (Hv1 : valid_datetime d1) by (unfold valid_datetime; simpl; lia).
  assert (Hv2 : valid_datetime d2) by (unfold valid_datetime; simpl; lia).
  assert (Hne : d1 <> d2) by (intros H; discriminate H).
  split; [exact Hv1|]. split; [exact Hv2|]. split; [exact Hne|].
  exact (bundle_names_distinct d1 d2 Hv1 Hv2 Hne).
Defined.

(* ===================================================================== *)
(** ** Creating directories and writing files *)
(* ===================================================================== *)

Lemma fs_find_fault p : forall t e,
  fs_find p t = Fault e -> e = FileNotFoundError \/ e = NotADirectoryError.
Proof.
  induction p as [|n r IH]; intros t e H; [done|].
  destruct t as [c|m]; cbn [fs_find] in H.
  - injection H as <-. by right.
  - destruct (m !! n) as [c|]; [by apply (IH c)|].
    injection H as <-. by left.
Qed.

(** What [mkdir_p] does, by what stands at the path. *)
Lemma mkdir_p_outcome p : forall t,
  match fs_find p t with
  | Done (Dir _) => mkdir_p p t = Done t
  | Done (File _) => mkdir_p p t = Fault FileExistsError
  | Fault FileNotFoundError => exists t', mkdir_p p t = Done t'
  | Fault _ => mkdir_p p t = Fault NotADirectoryError
  end.
Proof.
  induction p as [|n r IH]; intros [c|m]; cbn [fs_find mkdir_p]; try done.
  destruct (m !! n) as [c|] eqn:Hn; cbn [from_option id].
  - specialize (IH c). destruct (fs_find r c) as [[x|b]|e] eqn:Hf.
    + by rewrite IH.
    + rewrite IH. by rewrite insert_id.
    + destruct e; try (by rewrite IH). destruct IH as [t' ->]. by eexists.
  - specialize (IH (Dir ∅)).
    destruct r as [|n2 r]; [by eexists|].
    cbn [fs_find] in IH. rewrite lookup_empty in IH.
    destruct IH as [t' ->]. by eexists.
Qed.

(** A successful [mkdir_p] adds the missing directories on the way to the
    path and leaves everything else as it is. *)
Lemma mkdir_p_peek p : forall t t' q,
  mkdir_p p t = Done t' ->
  peek q t' =
  match peek q t with
  | Absent => if bool_decide (q `prefix_of` p) then IsDir else Absent
  | k => k
  end.
Proof.
  induction p as [|n r IH]; intros [c|m] t' q H; cbn [mkdir_p] in H; try done.
  - injection H as <-. destruct (peek q (Dir m)) eqn:Hq; try done.
    rewrite bool_decide_eq_false_2; [done|].
    intros Hp. apply prefix_nil_inv in Hp as ->. by rewrite peek_nil in Hq.
  - destruct (mkdir_p r (default (Dir ∅) (m !! n))) as [c|e] eqn:Hc; [|done].
    injection H as <-. destruct q as [|n' q]; [by rewrite !peek_nil|].
    rewrite !peek_cons. destruct (decide (n' = n)) as [->|Hne].
    + rewrite lookup_insert_eq. rewrite (IH _ _ q Hc).
      destruct (m !! n) as [x|]; cbn [from_option id].
      * destruct (peek q x); try done.
        repeat case_bool_decide; try done; exfalso;
          eauto using prefix_cons, prefix_cons_inv_2.
      * destruct q as [|n2 q]; [rewrite peek_nil|rewrite peek_cons, lookup_empty];
          repeat case_bool_decide; try done; exfalso;
          eauto using prefix_cons, prefix_cons_inv_2, prefix_nil.
    + rewrite lookup_insert_ne by done.
      destruct (m !! n') as [x|]; [destruct (peek q x); try done|];
        (rewrite bool_decide_eq_false_2; [done|]);
        intros Hp; by apply prefix_cons_inv_1 in Hp.
Qed.

Lemma mkdir_p_is_dir q : forall k t t',
  mkdir_p (q ++ k) t = Done t' -> is_dir q t' = true.
Proof.
  induction q as [|n q IH]; intros k [c|m] t' H.
  - by destruct k.
  - destruct k as [|n k]; cbn [app mkdir_p] in H.
    + by injection H as <-.
    + destruct (mkdir_p k _); [by injection H as <-|done].
  - done.
  - cbn [app mkdir_p] in H.
    destruct (mkdir_p (q ++ k) _) as [c|e] eqn:Hc; [|done].
    injection H as <-. unfold is_dir. cbn [fs_find]. rewrite lookup_insert_eq.
    exact (IH k _ c Hc).
Qed.

Lemma ensure_dirs_frame t t1 t2 :
  mkdir_p LOG_DIR t = Done t1 -> mkdir_p EVIDENCE_DIR t1 = Done t2 ->
  is_dir LOG_DIR t2 = true /\ is_dir EVIDENCE_DIR t2 = true /\
  forall q, peek q t2 =
            match peek q t with
            | Absent => if bool_decide (q `prefix_of` EVIDENCE_DIR)
                        then IsDir else Absent
            | k => k
            end.
Proof.
  intros Hm1 Hm2. split; [|split].
  - by apply (mkdir_p_is_dir LOG_DIR [lit "evidence"] t1).
  - apply (mkdir_p_is_dir EVIDENCE_DIR [] t1). by rewrite app_nil_r.
  - intros q. rewrite (mkdir_p_peek _ _ _ q Hm2), (mkdir_p_peek _ _ _ q Hm1).
    destruct (peek q t); try done.
    repeat case_bool_decide; try done. exfalso.
    match goal with H : ¬ _ |- _ => apply H end.
    etrans; [eassumption|]. by exists [lit "evidence"].
Qed.


(** X8. [ensure_dirs] returns exactly when no regular file stands at the
    evidence directory or on the way to it.  It then runs no command,
    creates the directories among [system-brain-agent], [logs] and
    [evidence] that were missing, and leaves every other path as it was;
    otherwise it raises [FileExistsError] or [NotADirectoryError] and the
    tree is unchanged. *)
Theorem ensure_dirs_outcome (w : world) :
  match ensure_dirs w with
  | Ok _ w' =>
      dir_or_absent EVIDENCE_DIR (fs w) = true /\
      queries w' = queries w /\
      is_dir LOG_DIR (fs w') = true /\ is_dir EVIDENCE_DIR (fs w') = true /\
      forall q, peek q (fs w') =
                match peek q (fs w) with
                | Absent => if bool_decide (q `prefix_of` EVIDENCE_DIR)
                            then IsDir else Absent
                | k => k
                end
  | Raise e w' =>
      dir_or_absent EVIDENCE_DIR (fs w) = false /\ w' = w /\
      (e = FileExistsError \/ e = NotADirectoryError)
  end.
Proof.
  unfold ensure_dirs, bind, fs_call.
  pose proof (mkdir_p_outcome LOG_DIR (fs w)) as H1.
  pose proof (fs_find_app LOG_DIR [lit "evidence"] (fs w)) as Hev.
  change (LOG_DIR ++ [lit "evidence"]) with EVIDENCE_DIR in Hev.
  unfold dir_or_absent.
  destruct (fs_find LOG_DIR (fs w)) as [[c|L]|e] eqn:HL.
  - rewrite H1. rewrite Hev. by auto.
  - rewrite H1. cbn [fs set_fs].
    pose proof (mkdir_p_entry LOG_DIR (lit "evidence") (fs w) L HL) as H2.
    change (LOG_DIR ++ [lit "evidence"]) with EVIDENCE_DIR in H2.
    rewrite fs_find_entry in Hev.
    destruct (mkdir_p EVIDENCE_DIR (fs w)) as [t2|e2] eqn:Hm2.
    + cbn [fs set_fs queries].
      destruct (ensure_dirs_frame (fs w) (fs w) t2 H1 Hm2) as (Hd1 & Hd2 & Hframe).
      split; [|by auto]. rewrite Hev.
      by destruct (L !! lit "evidence") as [[c|b]|].
    + rewrite Hev. destruct (L !! lit "evidence") as [[c|b]|]; try done.
      injection H2 as <-. split; [done|]. split; [by destruct w|by left].
  - destruct e.
    + destruct H1 as [t1 H1]. rewrite H1. cbn [fs set_fs].
      destruct (mkdir_p_fresh LOG_DIR (fs w) HL) as (t1' & H1' & Hfresh).
      rewrite H1 in H1'. injection H1' as <-.
      pose proof (mkdir_p_entry LOG_DIR (lit "evidence") t1 ∅ Hfresh) as H2.
      change (LOG_DIR ++ [lit "evidence"]) with EVIDENCE_DIR in H2.
      rewrite lookup_empty in H2. rewrite H2. cbn [fs set_fs queries].
      destruct (ensure_dirs_frame (fs w) t1 _ H1 H2) as (Hd1 & Hd2 & Hframe).
      rewrite Hev. by auto.
    + rewrite H1, Hev. by auto.
    + rewrite H1, Hev. by auto.
    + rewrite H1, Hev. by auto.
    + rewrite H1, Hev. by auto.
Qed.

(** X9. [ensure_dirs] is idempotent: after a call that returned, another
    call returns and changes nothing. *)
Theorem ensure_dirs_idempotent (w w' : world)
    (Hrun : ensure_dirs w = Ok tt w') :
  ensure_dirs w' = Ok tt w'.
Proof.
  assert (Hd : is_dir LOG_DIR (fs w') = true /\ is_dir EVIDENCE_DIR (fs w') = true).
  { unfold ensure_dirs, bind, fs_call in Hrun.
    destruct (mkdir_p LOG_DIR (fs w)) as [t1|e1] eqn:Hm1; [|done].
    cbn [fs set_fs] in Hrun.
    destruct (mkdir_p EVIDENCE_DIR t1) as [t2|e2] eqn:Hm2; [|done].
    injection Hrun as <-. cbn [fs set_fs].
    destruct (ensure_dirs_frame _ _ _ Hm1 Hm2) as (Hd1 & Hd2 & _). done. }
  destruct Hd as [Hd1 Hd2].
  unfold is_dir in Hd1, Hd2.
  destruct (fs_find LOG_DIR (fs w')) as [[c|L]|e] eqn:HL; try done.
  destruct (fs_find EVIDENCE_DIR (fs w')) as [[c|ev]|e] eqn:Hev; try done.
  unfold ensure_dirs, bind.
  rewrite (fs_call_Done _ _ _ (mkdir_p_present _ _ _ HL)).
  rewrite set_fs_same.
  rewrite (fs_call_Done _ _ _ (mkdir_p_present _ _ _ Hev)).
  by rewrite set_fs_same.
Qed.

Lemma ensure_dirs_idempotent_witness :
  let w := {| fs := Dir ∅; queries := [] |} in
  exists w', ensure_dirs w = Ok tt w' /\ ensure_dirs w' = Ok tt w'.
Proof.
  intros w. eexists. split; [vm_compute; reflexivity|].
  apply (ensure_dirs_idempotent w). vm_compute. reflexivity.
Defined.




(* ===================================================================== *)
(** ** More on pruning *)
(* ===================================================================== *)

Lemma list_bundles_fault t :
  match fs_find EVIDENCE_DIR t with
  | Done (Dir _) => exists bundles, list_bundles t = Done bundles
  | Done (File _) => list_bundles t = Fault NotADirectoryError
  | Fault e => list_bundles t = Fault e
  end.
Proof.
  unfold list_bundles, iterdir.
  destruct (fs_find EVIDENCE_DIR t) as [[c|m]|e]; try done. by eexists.
Qed.

(** The tree [prune_evidence] leaves when the evidence directory exists:
    the entries of the bundles taken from the front of the sorted list
    are pruned, the others are as they were. *)
Lemma prune_evidence_closed keep w ev :
  fs_find EVIDENCE_DIR (fs w) = Done (Dir ev) -> (0 < keep)%Z ->
  exists bundles ev',
    list_bundles (fs w) = Done bundles /\
    prune_evidence keep w = Ok tt (set_fs (fs_put EVIDENCE_DIR (Dir ev') (fs w)) w) /\
    forall n, ev' !! n =
              if bool_decide (EVIDENCE_DIR ++ [n] ∈ take (excess_of keep bundles) bundles)
              then pruned_entry (ev !! n) else ev !! n.
Proof.
  intros Hev Hkeep.
  destruct (list_bundles_spec _ _ Hev) as [bundles [Hlist [Hnd [Hss Hin]]]].
  set (k := excess_of keep bundles).
  pose proof (list_bundles_shape _ _ Hlist) as Hshape.
  set (names := map path_name bundles) in *.
  set (ev' := fold_left (fun e n => prune_step n e) (take k names) ev).
  exists bundles, ev'. split; [done|]. split.
  - unfold prune_evidence. destruct (Z.leb_spec keep 0) as [?|_]; [lia|].
    rewrite Hlist. destruct (Z.leb_spec (Z.of_nat (length bundles) - keep) 0) as [Hle|Hgt].
    + unfold ev', k, excess_of.
      replace (Z.to_nat (Z.of_nat (length bundles) - keep)) with 0 by lia.
      rewrite take_0. cbn [fold_left]. by rewrite (fs_put_same _ _ _ Hev), set_fs_same.
    + rewrite Hshape at 2. change (map ?f ?l) with (f <$> l). rewrite <- fmap_take.
      change (?f <$> ?l) with (map f l). fold names.
      rewrite (prune_loop _ _ _ _ Hev). done.
  - assert (Hnames : NoDup names).
    { rewrite Hshape in Hnd. change (map ?f ?l) with (f <$> l) in Hnd.
      by apply NoDup_fmap_1 in Hnd. }
    assert (Htake : forall n, n ∈ take k names <-> EVIDENCE_DIR ++ [n] ∈ take k bundles).
    { intros n. rewrite Hshape. change (map ?f ?l) with (f <$> l). rewrite <- fmap_take.
      rewrite list_elem_of_fmap. split.
      - intros H. by exists n.
      - intros [n' [Heq H]]. apply app_inv_head in Heq. by injection Heq as ->. }
    intros n. unfold ev'. rewrite prune_fold_lookup.
    + by rewrite (bool_decide_ext _ _ (Htake n)).
    + eapply sublist_NoDup; [exact Hnames | apply sublist_take].
Qed.

(** The ways a call of [prune_evidence] can go. *)
Lemma prune_evidence_cases keep w :
  ((keep <= 0)%Z \/ fs_find EVIDENCE_DIR (fs w) = Fault FileNotFoundError) /\
    prune_evidence keep w = Ok tt w \/
  ((0 < keep)%Z /\ dir_or_absent EVIDENCE_DIR (fs w) = false /\
    prune_evidence keep w = Raise NotADirectoryError w) \/
  ((0 < keep)%Z /\ exists ev, fs_find EVIDENCE_DIR (fs w) = Done (Dir ev)).
Proof.
  destruct (Z.leb_spec keep 0) as [Hle|Hgt].
  { left. split; [by left|]. unfold prune_evidence.
    by destruct (Z.leb_spec keep 0); [|lia]. }
  pose proof (list_bundles_fault (fs w)) as Hl.
  pose proof (fs_find_fault EVIDENCE_DIR (fs w)) as Hf.
  unfold prune_evidence, dir_or_absent.
  destruct (Z.leb_spec keep 0) as [?|_]; [lia|].
  destruct (fs_find EVIDENCE_DIR (fs w)) as [[c|ev]|e].
  - right; left. by rewrite Hl.
  - right; right. split; [done|]. by exists ev.
  - destruct (Hf e eq_refl) as [-> | ->]; rewrite Hl.
    + left. split; [by right|done].
    + right; left. done.
Qed.

(** X11. [prune_evidence] returns unless a regular file stands at the
    evidence directory or on the way to it and [keep] is positive: then
    it raises [NotADirectoryError], which its handler for
    [FileNotFoundError] does not catch, and changes nothing.  It never
    runs a command. *)
Theorem prune_evidence_raises (keep : Z) (w : world) :
  match prune_evidence keep w with
  | Ok _ w' =>
      queries w' = queries w /\
      ((keep <= 0)%Z \/ dir_or_absent EVIDENCE_DIR (fs w) = true)
  | Raise e w' =>
      e = NotADirectoryError /\ w' = w /\
      (0 < keep)%Z /\ dir_or_absent EVIDENCE_DIR (fs w) = false
  end.
Proof.
  destruct (prune_evidence_cases keep w) as [[Hc ->]|[(Hk & Hd & ->)|(Hk & ev & Hev)]].
  - split; [done|]. destruct Hc as [Hc|Hc]; [by left|right].
    unfold dir_or_absent. by rewrite Hc.
  - done.
  - destruct (prune_evidence_closed keep w ev Hev Hk) as (bundles & ev' & _ & -> & _).
    split; [done|]. right. unfold dir_or_absent. by rewrite Hev.
Qed.

Lemma strip_files_idem t : strip_files (strip_files t) = strip_files t.
Proof.
  apply peek_ext. intros q. rewrite !peek_strip_files.
  destruct q as [|n q]; [done|]. by destruct (peek (n :: q) t).
Qed.

Lemma strip_files_dir b : exists b', strip_files (Dir b) = Dir b'.
Proof. by eexists. Qed.

Lemma existsb_subdir (b : gmap pystr node) :
  existsb (fun kv => is_dir_node (snd kv)) (map_to_list b) = true <->
  exists n c, b !! n = Some (Dir c).
Proof.
  rewrite existsb_exists. split.
  - intros [[n [x|c]] [Hin Hd]]; [done|]. exists n, c.
    apply elem_of_map_to_list. by apply list_elem_of_In.
  - intros (n & c & Hn). exists (n, Dir c). split; [|done].
    apply list_elem_of_In. by apply elem_of_map_to_list.
Qed.

Lemma pruned_entry_idem o : pruned_entry (pruned_entry o) = pruned_entry o.
Proof.
  destruct o as [[c|b]|]; try done.
  rewrite pruned_entry_dir.
  destruct (existsb _ (map_to_list b)) eqn:Hsub; [|done].
  destruct (strip_files_dir b) as [b' Hb']. rewrite Hb', pruned_entry_dir.
  assert (existsb (fun kv => is_dir_node (snd kv)) (map_to_list b') = true) as ->.
  { apply existsb_subdir in Hsub as (n & c & Hn). apply existsb_subdir.
    assert (Hp : peek [n] (strip_files (Dir b)) = IsDir).
    { rewrite peek_strip_files, peek_cons, Hn. by rewrite peek_nil. }
    rewrite Hb', peek_cons in Hp.
    destruct (b' !! n) as [[x|c']|] eqn:Hn'; try done. by exists n, c'. }
  by rewrite <- Hb', strip_files_idem.
Qed.

(** X12. [prune_evidence] is idempotent: after a call that returned,
    another call with the same [keep] returns and changes nothing, also
    when bundles that hold directories were left over the limit. *)
Theorem prune_evidence_idempotent (keep : Z) (w w' : world)
    (Hrun : prune_evidence keep w = Ok tt w') :
  prune_evidence keep w' = Ok tt w'.
Proof.
  destruct (prune_evidence_cases keep w) as [[Hc Hw]|[(Hk & Hd & Hw)|(Hk & ev & Hev)]].
  - rewrite Hw in Hrun. injection Hrun as <-. exact Hw.
  - by rewrite Hw in Hrun.
  - destruct (prune_evidence_closed keep w ev Hev Hk) as (bundles & ev' & Hlist & Hw & Hlook).
    destruct (prune_evidence_outcome keep w bundles Hlist Hk)
      as (w1 & Hw1 & _ & _ & Hafter & _).
    rewrite Hrun in Hw, Hw1. injection Hw1 as <-. injection Hw as Hw.
    assert (Hev' : fs_find EVIDENCE_DIR (fs w') = Done (Dir ev')).
    { rewrite Hw. cbn [fs set_fs]. by apply (fs_find_put _ _ _ _ Hev). }
    destruct (prune_evidence_closed keep w' ev' Hev' Hk)
      as (bundles' & ev'' & Hlist' & Hw' & Hlook').
    rewrite Hw'. rewrite Hafter in Hlist'. injection Hlist' as Hb'.
    set (k := excess_of keep bundles) in *.
    set (kept := filter (fun p => has_subdir p (fs w) = true) (take k bundles)) in *.
    assert (Htaken : take (excess_of keep bundles') bundles' = take (excess_of keep bundles') kept).
    { rewrite <- Hb'. apply take_app_le. unfold excess_of.
      rewrite length_app, length_drop. unfold k, excess_of. lia. }
    assert (Hsame : ev'' = ev').
    { apply map_eq. intros n. rewrite Hlook'. case_bool_decide as Hin; [|done].
      rewrite Htaken in Hin. apply in_take_elem in Hin.
      apply list_elem_of_filter in Hin as [_ Hin].
      rewrite Hlook, bool_decide_eq_true_2 by done. apply pruned_entry_idem. }
    rewrite Hsame, (fs_put_same _ _ _ Hev'). by rewrite set_fs_same.
Qed.

Lemma prune_evidence_idempotent_witness :
  let a := Dir (<[lit "details.json" := File (lit "{}")]> {[lit "core" := Dir ∅]}) in
  let b := Dir {[lit "details.json" := File (lit "{}")]} in
  let w := {| fs := Dir {[lit "system-brain-agent" := Dir {[lit "logs" :=
                Dir {[lit "evidence" :=
                  Dir (<[lit "2026-11-04T09-57-00.000001Z" := a]>
                        (<[lit "2026-11-04T09-58-00.000001Z" := b]>
                          {[lit "2026-11-04T09-59-00.000001Z" := b]}))]}]}]};
              queries := [] |} in
  exists w', prune_evidence 1 w = Ok tt w' /\ w' <> w /\
             prune_evidence 1 w' = Ok tt w'.
Proof.
  intros a b w. eexists. split; [vm_compute; reflexivity|].
  split; [vm_compute; discriminate|].
  apply (prune_evidence_idempotent 1 w). vm_compute. reflexivity.
Defined.





(* ===================================================================== *)
(** ** More on [snapshot] *)
(* ===================================================================== *)












(** X16. With a regular file where the bundle belongs, or on the way to
    it, [snapshot] raises before it runs a command or writes a file:
    [FileExistsError] for a file at the bundle itself,
    [NotADirectoryError] for one on the way. *)
Theorem snapshot_obstructed (C : config) (E : env) (ts : pystr) (details : json)
    (w : world) :
  match fs_find (evidence_bundle_dir ts) (fs w) with
  | Done (File _) => snapshot C E ts details w = Raise FileExistsError w
  | Fault NotADirectoryError => snapshot C E ts details w = Raise NotADirectoryError w
  | _ => exists w', fs_call (mkdir_p (evidence_bundle_dir ts)) w = Ok tt w'
  end.
Proof.
  pose proof (mkdir_p_outcome (evidence_bundle_dir ts) (fs w)) as Hmk.
  pose proof (fs_find_fault (evidence_bundle_dir ts) (fs w)) as Hfault.
  unfold snapshot. cbv zeta.
  destruct (fs_find (evidence_bundle_dir ts) (fs w)) as [[c|b]|e].
  - by rewrite (bind_Raise _ _ _ _ _ (fs_call_Fault _ _ _ Hmk)).
  - rewrite (fs_call_Done _ _ _ Hmk). by eexists.
  - destruct (Hfault e eq_refl) as [-> | ->].
    + destruct Hmk as [t' Hmk]. rewrite (fs_call_Done _ _ _ Hmk). by eexists.
    + by rewrite (bind_Raise _ _ _ _ _ (fs_call_Fault _ _ _ Hmk)).
Qed.


(* ===================================================================== *)
(** ** More on [main] *)
(* ===================================================================== *)








(* ===================================================================== *)
(** ** [details.json] *)
(* ===================================================================== *)

Lemma skip_ws_all ws s : forallb is_ws ws = true -> skip_ws (ws ++ s) = skip_ws s.
Proof.
  induction ws as [|c ws IH]; [done|]. cbn [forallb app skip_ws].
  intros H. apply andb_true_iff in H as [-> H]. by apply IH.
Qed.

Lemma newline_indent_ws lvl : forallb is_ws (newline_indent lvl) = true.
Proof.
  unfold newline_indent. cbn [forallb]. change (is_ws 10) with true. cbn [andb].
  induction (2 * lvl) as [|n IH]; [done|]. cbn [repeat forallb]. by rewrite IH.
Qed.

Lemma json_dumps_indent_arr lvl x l :
  json_dumps_indent lvl (JArr (x :: l)) =
  91%N :: newline_indent (S lvl) ++
  str_join (44%N :: newline_indent (S lvl)) (map (json_dumps_indent (S lvl)) (x :: l)) ++
  newline_indent lvl ++ [93%N].
Proof. reflexivity. Qed.

Lemma json_dumps_indent_obj lvl kv ms :
  json_dumps_indent lvl (JObj (kv :: ms)) =
  123%N :: newline_indent (S lvl) ++
  str_join (44%N :: newline_indent (S lvl)) (map (member_text_indent (S lvl)) (kv :: ms)) ++
  newline_indent lvl ++ [125%N].
Proof. reflexivity. Qed.

Lemma json_dumps_indent_head lvl v rest :
  exists c t, json_dumps_indent lvl v ++ rest = c :: t /\ is_ws c = false /\ c <> 93%N.
Proof.
  destruct v as [ |b|z|s|[|x l]|[|kv ms]];
    try apply (json_dumps_head _ rest);
    try (eexists _, _; split; [reflexivity|]; split; [reflexivity | lia]).
  - change (json_dumps_indent lvl (JArr [])) with [91; 93]%N.
    eexists _, _. split; [reflexivity|]. by split.
  - rewrite json_dumps_indent_arr. eexists _, _. split; [reflexivity|]. by split.
  - change (json_dumps_indent lvl (JObj [])) with [123; 125]%N.
    eexists _, _. split; [reflexivity|]. by split.
  - rewrite json_dumps_indent_obj. eexists _, _. split; [reflexivity|]. by split.
Qed.

Lemma skip_ws_json_dumps_indent lvl v rest :
  skip_ws (json_dumps_indent lvl v ++ rest) = json_dumps_indent lvl v ++ rest.
Proof.
  destruct (json_dumps_indent_head lvl v rest) as [c [t [-> [Hc _]]]].
  simpl. by rewrite Hc.
Qed.

Lemma json_dumps_indent_length lvl v : 1 <= length (json_dumps_indent lvl v).
Proof.
  destruct (json_dumps_indent_head lvl v []) as [c [t [H _]]].
  rewrite app_nil_r in H. rewrite H. simpl. lia.
Qed.

Lemma str_join_indent_head sep lvl x l rest :
  exists rest',
    str_join sep (map (json_dumps_indent lvl) (x :: l)) ++ rest =
    json_dumps_indent lvl x ++ rest'.
Proof.
  destruct l as [|y l].
  - by exists rest.
  - cbn [map]. rewrite str_join_cons2, <- app_assoc. by eexists.
Qed.

Lemma member_text_indent_scan lvl kv rest :
  member_text_indent lvl kv ++ rest =
  34%N :: flat_map escape_char (fst kv) ++
  34%N :: 58%N :: 32%N :: json_dumps_indent lvl (snd kv) ++ rest.
Proof.
  unfold member_text_indent, json_quote. unlit.
  cbn [app]. rewrite <- !app_assoc. done.
Qed.

Lemma member_text_indent_length lvl kv :
  length (member_text_indent lvl kv) =
  length (flat_map escape_char (fst kv)) + 4 + length (json_dumps_indent lvl (snd kv)).
Proof.
  pose proof (f_equal (@length N) (member_text_indent_scan lvl kv [])) as H.
  rewrite app_nil_r in H. rewrite H. cbn [length].
  rewrite length_app. cbn [length]. rewrite app_nil_r. lia.
Qed.

Lemma members_indent_head sep lvl kv ms rest :
  exists t, str_join sep (map (member_text_indent lvl) (kv :: ms)) ++ rest = 34%N :: t.
Proof.
  destruct ms as [|y ms]; cbn [map]; [|rewrite str_join_cons2];
    unfold member_text_indent at 1, json_quote; by eexists.
Qed.

Lemma ends_number_ws ws c rest :
  forallb is_ws ws = true -> is_digit c = false -> c <> 46%N -> c <> 101%N -> c <> 69%N ->
  ends_number (ws ++ c :: rest).
Proof.
  intros Hws Hc H1 H2 H3. destruct ws as [|x ws]; [done|].
  cbn [forallb] in Hws. apply andb_true_iff in Hws as [Hx _].
  unfold is_ws in Hx. cbn [app ends_number]. unfold is_digit.
  rewrite !orb_true_iff, !N.eqb_eq in Hx.
  repeat split; try lia.
  apply andb_false_iff. rewrite !N.leb_gt. lia.
Qed.

Lemma scan_indent_roundtrip fuel :
  (forall lvl v rest,
      length (json_dumps_indent lvl v) <= fuel -> ends_number rest ->
      scan_once fuel (json_dumps_indent lvl v ++ rest) = Some (v, rest)) /\
  (forall lvl l ws rest,
      l <> [] -> forallb is_ws ws = true ->
      length (str_join (44%N :: newline_indent lvl) (map (json_dumps_indent lvl) l)) < fuel ->
      scan_items fuel
        (str_join (44%N :: newline_indent lvl) (map (json_dumps_indent lvl) l) ++
         ws ++ 93%N :: rest)
      = Some (l, rest)) /\
  (forall lvl ms ws rest,
      ms <> [] -> forallb is_ws ws = true ->
      length (str_join (44%N :: newline_indent lvl) (map (member_text_indent lvl) ms)) < fuel ->
      scan_members fuel
        (str_join (44%N :: newline_indent lvl) (map (member_text_indent lvl) ms) ++
         ws ++ 125%N :: rest)
      = Some (ms, rest)).
Proof.
  induction fuel as [|f [IHv [IHi IHm]]].
  { split; [|split]; intros; try lia.
    pose proof (json_dumps_indent_length lvl v). lia. }
  split; [|split].
  - intros lvl v rest Hlen Hrest.
    destruct (scan_roundtrip (S f)) as [Hflat _].
    destruct v as [ |b|z|s|[|x l]|[|kv ms]];
      try (apply (Hflat _ rest Hlen Hrest)); try reflexivity.
    + rewrite json_dumps_indent_arr in *.
      cbn [app scan_once N.eqb Pos.eqb]. rewrite <- !app_assoc.
      rewrite skip_ws_all by apply newline_indent_ws.
      assert (Hi : scan_items f
                (str_join (44%N :: newline_indent (S lvl))
                   (map (json_dumps_indent (S lvl)) (x :: l)) ++
                 newline_indent lvl ++ 93%N :: rest) = Some (x :: l, rest)).
      { apply (IHi (S lvl) (x :: l) (newline_indent lvl) rest);
          [done|apply newline_indent_ws|].
        cbn [length] in Hlen. rewrite !length_app in Hlen. cbn [length] in Hlen. lia. }
      cbn [app].
      destruct (str_join_indent_head (44%N :: newline_indent (S lvl)) (S lvl) x l
                  (newline_indent lvl ++ 93%N :: rest)) as [rest' Hj].
      destruct (json_dumps_indent_head (S lvl) x rest') as [c [t [Heq [Hc Hc']]]].
      rewrite Hj, Heq in Hi |- *. cbn [skip_ws]. rewrite Hc.
      apply N.eqb_neq in Hc'. rewrite Hc'. by rewrite Hi.
    + rewrite json_dumps_indent_obj in *.
      cbn [app scan_once N.eqb Pos.eqb]. rewrite <- !app_assoc.
      rewrite skip_ws_all by apply newline_indent_ws.
      assert (Hm : scan_members f
                (str_join (44%N :: newline_indent (S lvl))
                   (map (member_text_indent (S lvl)) (kv :: ms)) ++
                 newline_indent lvl ++ 125%N :: rest) = Some (kv :: ms, rest)).
      { apply (IHm (S lvl) (kv :: ms) (newline_indent lvl) rest);
          [done|apply newline_indent_ws|].
        cbn [length] in Hlen. rewrite !length_app in Hlen. cbn [length] in Hlen. lia. }
      cbn [app].
      destruct (members_indent_head (44%N :: newline_indent (S lvl)) (S lvl) kv ms
                  (newline_indent lvl ++ 125%N :: rest)) as [t Ht].
      rewrite Ht in Hm |- *. cbn [skip_ws is_ws N.eqb Pos.eqb orb].
      cbn [N.eqb Pos.eqb]. by rewrite Hm.
  - intros lvl l ws rest Hne Hws Hlen. destruct l as [|v vs]; [done|].
    cbn [scan_items]. destruct vs as [|v2 vs].
    + cbn [map str_join] in *.
      rewrite IHv; [|lia|by apply ends_number_ws].
      rewrite skip_ws_all by done. reflexivity.
    + cbn [map] in *. rewrite str_join_cons2 in *.
      rewrite !length_app in Hlen. cbn [length] in Hlen.
      rewrite <- !app_assoc. cbn [app].
      rewrite IHv; [|lia|simpl; repeat split; lia || done].
      cbn [skip_ws is_ws N.eqb Pos.eqb orb]. cbn [N.eqb Pos.eqb].
      rewrite skip_ws_all by apply newline_indent_ws.
      change (json_dumps_indent lvl v2 :: map (json_dumps_indent lvl) vs)
        with (map (json_dumps_indent lvl) (v2 :: vs)) in *.
      assert (Hsk : forall r,
                skip_ws (str_join (44%N :: newline_indent lvl)
                           (map (json_dumps_indent lvl) (v2 :: vs)) ++ r)
                = str_join (44%N :: newline_indent lvl)
                    (map (json_dumps_indent lvl) (v2 :: vs)) ++ r).
      { intros r. destruct (str_join_indent_head (44%N :: newline_indent lvl) lvl v2 vs r)
          as [rest' ->]. apply skip_ws_json_dumps_indent. }
      rewrite Hsk.
      rewrite (IHi lvl (v2 :: vs) ws rest); [done|done|done|lia].
  - intros lvl ms ws rest Hne Hws Hlen. destruct ms as [|[k v] ms]; [done|].
    destruct ms as [|m2 ms].
    + cbn [map str_join] in *. rewrite member_text_indent_length in Hlen.
      rewrite member_text_indent_scan. cbn [scan_members N.eqb Pos.eqb negb fst snd].
      rewrite scan_string_quote.
      cbn [skip_ws is_ws N.eqb Pos.eqb orb negb]. cbn [N.eqb Pos.eqb negb].
      rewrite skip_ws_json_dumps_indent.
      rewrite IHv; [|cbn [fst snd] in Hlen; lia|by apply ends_number_ws].
      rewrite skip_ws_all by done. reflexivity.
    + cbn [map] in *. rewrite str_join_cons2 in *.
      rewrite !length_app, member_text_indent_length in Hlen.
      cbn [length fst snd] in Hlen.
      rewrite <- !app_assoc. rewrite member_text_indent_scan.
      cbn [scan_members N.eqb Pos.eqb negb fst snd].
      rewrite scan_string_quote.
      cbn [skip_ws is_ws N.eqb Pos.eqb orb negb]. cbn [N.eqb Pos.eqb negb].
      rewrite skip_ws_json_dumps_indent.
      rewrite IHv; [|lia|simpl; repeat split; lia || done].
      cbn [app skip_ws is_ws N.eqb Pos.eqb orb]. cbn [N.eqb Pos.eqb].
      rewrite skip_ws_all by apply newline_indent_ws.
      change (member_text_indent lvl m2 :: map (member_text_indent lvl) ms)
        with (map (member_text_indent lvl) (m2 :: ms)) in *.
      assert (Hsk : forall r,
                skip_ws (str_join (44%N :: newline_indent lvl)
                           (map (member_text_indent lvl) (m2 :: ms)) ++ r)
                = str_join (44%N :: newline_indent lvl)
                    (map (member_text_indent lvl) (m2 :: ms)) ++ r).
      { intros r.
        by destruct (members_indent_head (44%N :: newline_indent lvl) lvl m2 ms r)
          as [t ->]. }
      rewrite Hsk.
      rewrite (IHm lvl (m2 :: ms) ws rest); [done|done|done|lia].
Qed.

(** X20. The text [snapshot] writes to [details.json], [json.dumps] with
    an indent of two, is a JSON document that [json.loads] reads back as
    the value it was written from, at every nesting level. *)
Theorem details_json_round_trip (v : json) (lvl : nat) :
  json_loads (json_dumps_indent lvl v) = Some v.
Proof.
  unfold json_loads.
  rewrite <- (app_nil_r (json_dumps_indent lvl v)) at 2.
  rewrite skip_ws_json_dumps_indent, app_nil_r.
  destruct (scan_indent_roundtrip (S (length (json_dumps_indent lvl v)))) as [H _].
  rewrite <- (app_nil_r (json_dumps_indent lvl v)) at 2.
  rewrite H; [done | lia | done].
Qed.

(* ===================================================================== *)
(** ** Run after run *)
(* ===================================================================== *)









(* ===================================================================== *)
(** ** The timeouts *)
(* ===================================================================== *)





